(** * dbt-training: the BigQuery export and load scripts

    A shallow embedding of [scripts/export_bq_tables.py] and
    [scripts/load_jsonl_to_bq.py].  Both scripts are straight-line glue
    over the BigQuery client, the [csv] module and the local file system,
    so the embedding is a state-and-exception monad over an explicit
    world: the local file system, the remote service, and one
    chronological log of everything the script does (remote requests,
    file operations, printed lines). *)

From Stdlib Require Import Ascii String.
From stdpp Require Import gmap strings list fin_maps pretty.

Local Open Scope string_scope.

(** ** Python: exceptions, outcomes, the script monad *)

Module Py.

(** The exceptions the two scripts can meet.  [SystemExit] is what
    [raise SystemExit(msg)] raises; the others stand for the errors of
    the client library ([NotFound] and [Conflict] are the two the
    library itself tells apart, [ApiError] is any other failure:
    network, permission, quota, a failed job), [OSError] is what the
    local file system raises. *)
Inductive exn : Type :=
| SystemExit (msg : string)
| NotFound
| Conflict
| ApiError (descr : string)
| OSError (descr : string).

(** [except Exception] catches every exception that derives from
    [Exception]; [SystemExit] derives from [BaseException] only. *)
Definition is_Exception (e : exn) : bool :=
  match e with
  | SystemExit _ => false
  | _ => true
  end.

Inductive outcome (A : Type) : Type :=
| Ok (a : A)
| Raise (e : exn).
Arguments Ok {A} a.
Arguments Raise {A} e.

(** Exit status of the interpreter: 0 when the script runs to its end,
    1 for an uncaught exception, and 1 as well for [SystemExit] with a
    string argument (the string goes to stderr). *)
Definition exit_status {A : Type} (r : outcome A) : nat :=
  match r with
  | Ok _ => 0
  | Raise _ => 1
  end.

Definition stderr_message {A : Type} (r : outcome A) : option string :=
  match r with
  | Raise (SystemExit msg) => Some msg
  | _ => None
  end.

(** A computation over a world [W]: it ends with a value or with an
    exception, and in both cases leaves a world behind. *)
Definition M (W A : Type) : Type := W -> outcome A * W.

Section Monad.
Context {W : Type}.

Definition ret {A : Type} (a : A) : M W A := fun w => (Ok a, w).

Definition raise {A : Type} (e : exn) : M W A := fun w => (Raise e, w).

Definition bind {A B : Type} (c : M W A) (k : A -> M W B) : M W B :=
  fun w =>
    match c w with
    | (Ok a, w1) => k a w1
    | (Raise e, w1) => (Raise e, w1)
    end.

(** [with ... :] and [try ... finally]: the cleanup runs whatever the
    body did, and the body's exception, if any, goes on. *)
Definition finally {A : Type} (body : M W A) (cleanup : M W unit) : M W A :=
  fun w =>
    match body w with
    | (r, w1) =>
        match cleanup w1 with
        | (Ok _, w2) => (r, w2)
        | (Raise e, w2) => (Raise e, w2)
        end
    end.

(** [try: body  except Exception: handler] (the handler does not use
    the exception). *)
Definition try_except_Exception {A : Type} (body handler : M W A) : M W A :=
  fun w =>
    match body w with
    | (Ok a, w1) => (Ok a, w1)
    | (Raise e, w1) => if is_Exception e then handler w1 else (Raise e, w1)
    end.

(** [for x in l: body x] over a list already in memory. *)
Fixpoint for_each {A : Type} (l : list A) (body : A -> M W unit) : M W unit :=
  match l with
  | [] => ret tt
  | x :: rest => bind (body x) (fun _ => for_each rest body)
  end.

End Monad.

Declare Scope py_scope.
Delimit Scope py_scope with py.
Notation "x <- c ;; k" := (bind c (fun x => k))
  (at level 100, c at next level, right associativity) : py_scope.
Notation "c ;; k" := (bind c (fun _ => k))
  (at level 100, right associativity) : py_scope.

(** Paths are kept as their components below the file-system root;
    [joinpath] is [pathlib]'s [/] and [os.path.join] with one more
    component, [path_str] is [str(path)] on a POSIX system. *)
Abbreviation Path := (list string).

Definition joinpath (p : Path) (s : string) : Path := p ++ [s].

Fixpoint path_str (p : Path) : string :=
  match p with
  | [] => ""
  | c :: rest => "/" ++ c ++ path_str rest
  end.

(** The directories [mkdir(parents=True)] has to provide: the path and
    every ancestor of it. *)
Fixpoint ancestors_and_self (p : Path) : list Path :=
  match p with
  | [] => [[]]
  | c :: rest => [] :: map (cons c) (ancestors_and_self rest)
  end.

End Py.


(** ** scripts/export_bq_tables.py *)

Module Exporter.
Import Py.
Local Open Scope py_scope.

Definition PROJECT_ID : string := "saras-bigquery".
Definition DATASET_ID : string := "dbt_training_marts".

(** *** What the client library hands to the script *)

Record TableReference : Type := mkTableReference {
  project : string;
  dataset_id : string;
  table_id : string
}.

Record DatasetReference : Type := mkDatasetReference {
  ds_project : string;
  ds_dataset_id : string
}.

(** An entry of [client.list_tables]; its [table_id] is that of its
    [reference]. *)
Record TableListItem : Type := mkTableListItem {
  reference : TableReference
}.

Record SchemaField : Type := mkSchemaField {
  name : string;
  field_type : string
}.

(** The table [client.get_table] returns: the script reads [table_id]
    and [schema]. *)
Record Table : Type := mkTable {
  table_reference : TableReference;
  schema : list SchemaField
}.

(** A cell of a row as [csv.writer] sees it: [None], a [str], or any
    other object, of which the writer only takes [str(obj)]. *)
Inductive Value : Type :=
| VNone
| VStr (s : string)
| VObj (str_of : string).

(** A row of the client library maps field names to values;
    [row.get(name)] is the value under [name], and [None] when the row
    has no such field. *)
Abbreviation Row := (gmap string Value).

Definition Row_get (row : Row) (key : string) : Value :=
  match row !! key with
  | Some v => v
  | None => VNone
  end.

(** What iterating over the rows of a table does: a finite, forward-only
    sequence of rows that ends normally or with an error of the service. *)
Inductive RowIterator : Type :=
| StopIteration
| Next (row : Row) (rest : RowIterator)
| IterError (e : exn).

(** The remote service as the script observes it during one run:
    building the client, [tables.list], [tables.get], and the pages of
    [tabledata.list] for a table, taken as one sequence. *)
Record Remote : Type := mkRemote {
  connect : string -> outcome unit;
  list_tables : DatasetReference -> outcome (list TableListItem);
  get_table : TableReference -> outcome Table;
  tabledata_list : Table -> RowIterator
}.

(** *** The world of the script *)

Inductive event : Type :=
| EClient (project : string)
| EListTables (ds : DatasetReference)
| EGetTable (ref : TableReference)
| EListRows (ref : TableReference)
| EMkdir (p : Path)
| EOpen (p : Path)
| EWriteRow (p : Path) (cells : list Value)
| EClose (p : Path)
| EPrint (line : string).

(** The local file system: the directories that exist and the regular
    files with their contents.  The output location is taken to be
    writable: the directory can be made, no permission is missing, the
    disk is not full, the path of the directory leaves room for a file
    name, and no directory stands in the place of a file to be written.
    What the file system still refuses is a file whose name is
    longer than [NAME_MAX] bytes: the name of the file comes from the
    table, not from the location. *)
Record FS : Type := mkFS {
  dirs : gset Path;
  files : gmap Path string
}.

Definition NAME_MAX : nat := 255.

Definition name_fits (p : Path) : bool :=
  match last p with
  | Some c => Nat.leb (String.length c) NAME_MAX
  | None => true
  end.

Record World : Type := mkWorld {
  fs : FS;
  trace : list event
}.

Definition log (ev : event) : M World unit :=
  fun w => (Ok tt, mkWorld (fs w) (trace w ++ [ev])).

Definition lift {A : Type} (r : outcome A) : M World A :=
  fun w => (r, w).

Definition print (line : string) : M World unit := log (EPrint line).

(** [p.mkdir(parents=True, exist_ok=True)] *)
Definition mkdir_parents_exist_ok (p : Path) : M World unit :=
  log (EMkdir p) ;;
  fun w =>
    (Ok tt,
     mkWorld (mkFS (dirs (fs w) ∪ list_to_set (ancestors_and_self p)) (files (fs w)))
             (trace w)).

(** [p.open("w", ...)]: the file is created, or emptied when it is there;
    with a name that is too long the call raises [OSError] and there is no
    file. *)
Definition open_w (p : Path) : M World unit :=
  log (EOpen p) ;;
  if name_fits p
  then fun w =>
         (Ok tt, mkWorld (mkFS (dirs (fs w)) (<[p := ""]> (files (fs w)))) (trace w))
  else raise (OSError "File name too long").

Definition close (p : Path) : M World unit := log (EClose p).

Definition with_open_w {A : Type} (p : Path) (body : M World A) : M World A :=
  open_w p ;; finally body (close p).

(** [client.list_rows(table)]: the rows of the table.  For a table that
    came without columns the library first fetches the table again, and
    streams the rows of what it gets. *)
Definition list_rows (client : Remote) (table : Table) : M World RowIterator :=
  log (EListRows (table_reference table)) ;;
  match schema table with
  | [] =>
      table <- (log (EGetTable (table_reference table)) ;;
                lift (get_table client (table_reference table))) ;;
      ret (tabledata_list client table)
  | _ :: _ => ret (tabledata_list client table)
  end.

Definition file_text (p : Path) (w : World) : string :=
  match files (fs w) !! p with
  | Some s => s
  | None => ""
  end.

Section Script.

(** The text [csv.writer(f).writerow(cells)] passes to [f.write]: one
    record of the dialect, line terminator included. *)
Variable writerow_text : list Value -> string.

(** [Path(__file__).resolve().parent.parent]: the directory that holds
    [scripts/]. *)
Variable repo_root : Path.

Definition OUTPUT_DIR : Path := joinpath (joinpath repo_root "exports") DATASET_ID.

(** [writer.writerow(cells)] on the writer of the file open at [p]. *)
Definition writerow (p : Path) (cells : list Value) : M World unit :=
  log (EWriteRow p cells) ;;
  fun w =>
    (Ok tt,
     mkWorld (mkFS (dirs (fs w))
                   (<[p := file_text p w ++ writerow_text cells]> (files (fs w))))
             (trace w)).

(** [for row in rows: body row] *)
Fixpoint for_rows (rows : RowIterator) (body : Row -> M World unit) : M World unit :=
  match rows with
  | StopIteration => ret tt
  | Next row rest => body row ;; for_rows rest body
  | IterError e => raise e
  end.

Definition export_table (client : Remote) (table_ref : TableReference) : M World Path :=
  table <- (log (EGetTable table_ref) ;; lift (get_table client table_ref)) ;;
  mkdir_parents_exist_ok OUTPUT_DIR ;;
  let output_path := joinpath OUTPUT_DIR (table_id (table_reference table) ++ ".csv") in
  let fieldnames := map name (schema table) in
  with_open_w output_path (
    writerow output_path (map VStr fieldnames) ;;
    rows <- list_rows client table ;;
    for_rows rows (fun row =>
      writerow output_path (map (fun name => Row_get row name) fieldnames))
  ) ;;
  ret output_path.

Definition main (remote : Remote) : M World unit :=
  log (EClient PROJECT_ID) ;;
  lift (connect remote PROJECT_ID) ;;
  let client := remote in
  let dataset_ref := mkDatasetReference PROJECT_ID DATASET_ID in
  tables <- (log (EListTables dataset_ref) ;; lift (list_tables client dataset_ref)) ;;
  match tables with
  | [] => raise (SystemExit ("No tables found in " ++ PROJECT_ID ++ "." ++ DATASET_ID))
  | _ =>
      print ("Found " ++ pretty (length tables) ++ " tables in "
             ++ PROJECT_ID ++ "." ++ DATASET_ID ++ ".") ;;
      for_each tables (fun t =>
        path <- export_table client (reference t) ;;
        print ("Exported " ++ table_id (reference t) ++ " -> " ++ path_str path))
  end.

(** The text of a file made of the given records. *)
Fixpoint csv_text (records : list (list Value)) : string :=
  match records with
  | [] => ""
  | cells :: rest => writerow_text cells ++ csv_text rest
  end.

(** [output_path] and [fieldnames] of [export_table], and the cells it
    writes for a row. *)
Definition csv_path (table : Table) : Path :=
  joinpath OUTPUT_DIR (table_id (table_reference table) ++ ".csv").

Definition column_names (table : Table) : list string := map name (schema table).

Definition row_cells (names : list string) (row : Row) : list Value :=
  map (fun n => Row_get row n) names.

End Script.

(** *** Reading a run back

    The rows an iterator yields before it stops, and the error it stops
    with, if any. *)
Fixpoint yielded (rows : RowIterator) : list Row :=
  match rows with
  | StopIteration => []
  | Next row rest => row :: yielded rest
  | IterError _ => []
  end.

Fixpoint iter_error (rows : RowIterator) : option exn :=
  match rows with
  | StopIteration => None
  | Next _ rest => iter_error rest
  | IterError e => Some e
  end.

(** The iterator that yields [l] and ends, and the one that yields [l]
    and then fails. *)
Fixpoint iter_of_list (l : list Row) : RowIterator :=
  match l with
  | [] => StopIteration
  | row :: rest => Next row (iter_of_list rest)
  end.

Fixpoint iter_failing_after (l : list Row) (e : exn) : RowIterator :=
  match l with
  | [] => IterError e
  | row :: rest => Next row (iter_failing_after rest e)
  end.

(** The records written to the file at [p], in the order of the log. *)
Fixpoint written_rows (p : Path) (tr : list event) : list (list Value) :=
  match tr with
  | [] => []
  | EWriteRow q cells :: rest =>
      if decide (q = p) then cells :: written_rows p rest else written_rows p rest
  | _ :: rest => written_rows p rest
  end.

(** The row source of a table: what iterating [client.list_rows(table)]
    goes through.  For a table that came without columns it is the rows of
    the table as fetched again, and the error of that fetch when it fails. *)
Definition row_source (client : Remote) (table : Table) : RowIterator :=
  match schema table with
  | [] =>
      match get_table client (table_reference table) with
      | Ok table' => tabledata_list client table'
      | Raise e => IterError e
      end
  | _ :: _ => tabledata_list client table
  end.

(** What [client.list_rows(table)] logs. *)
Definition list_rows_events (table : Table) : list event :=
  EListRows (table_reference table)
  :: match schema table with
     | [] => [EGetTable (table_reference table)]
     | _ :: _ => []
     end.

(** The name of the file of a table, and whether the file system takes it. *)
Definition csv_name (table : Table) : string :=
  table_id (table_reference table) ++ ".csv".

Definition file_name_fits (table : Table) : bool :=
  Nat.leb (String.length (csv_name table)) NAME_MAX.

(** An export of the loop that ends well, and one that raises because the
    metadata fetch or the row source fails. *)
Definition exports_well (remote : Remote) (t : TableListItem) : Prop :=
  exists table,
    get_table remote (reference t) = Ok table
    /\ file_name_fits table = true
    /\ iter_error (row_source remote table) = None.

Definition export_fails (remote : Remote) (t : TableListItem) (e : exn) : Prop :=
  get_table remote (reference t) = Raise e
  \/ exists table,
       get_table remote (reference t) = Ok table
       /\ file_name_fits table = true
       /\ iter_error (row_source remote table) = Some e.

(** The metadata fetches of the export of a listed table: the one of
    [export_table], and the one of [list_rows] when the table came without
    columns and its file could be opened. *)
Definition export_fetches (remote : Remote) (t : TableListItem) : list TableReference :=
  reference t
  :: match get_table remote (reference t) with
     | Ok table =>
         match schema table with
         | [] => if file_name_fits table then [table_reference table] else []
         | _ :: _ => []
         end
     | Raise _ => []
     end.

(** The name under which the table of a listed entry is exported. *)
Definition fetched_table_id (remote : Remote) (t : TableListItem) : string :=
  match get_table remote (reference t) with
  | Ok table => table_id (table_reference table)
  | Raise _ => ""
  end.

Definition is_file_op (ev : event) : bool :=
  match ev with
  | EMkdir _ | EOpen _ | EWriteRow _ _ | EClose _ => true
  | _ => false
  end.

(** The lines printed, the tables fetched, in the order of the log. *)
Fixpoint printed (tr : list event) : list string :=
  match tr with
  | [] => []
  | EPrint line :: rest => line :: printed rest
  | _ :: rest => printed rest
  end.

Fixpoint fetched (tr : list event) : list TableReference :=
  match tr with
  | [] => []
  | EGetTable ref :: rest => ref :: fetched rest
  | _ :: rest => fetched rest
  end.

(** What a piece of the script does to a world, as data: the
    directories it makes, the files it leaves (with their final text), and
    the events it logs. *)
Record effect : Type := mkEffect {
  made_dirs : gset Path;
  left_files : gmap Path string;
  logged : list event
}.

Definition no_effect : effect := mkEffect ∅ ∅ [].

Definition apply (e : effect) (w : World) : World :=
  mkWorld (mkFS (dirs (fs w) ∪ made_dirs e) (left_files e ∪ files (fs w)))
          (trace w ++ logged e).

(** [e1] and then [e2]: a file written by both keeps the text of [e2]. *)
Definition and_then (e1 e2 : effect) : effect :=
  mkEffect (made_dirs e1 ∪ made_dirs e2) (left_files e2 ∪ left_files e1)
           (logged e1 ++ logged e2).

Section Summary.
Variable writerow_text : list Value -> string.
Variable repo_root : Path.

(** One call of [export_table], read off the remote service alone. *)
Definition export_summary (client : Remote) (table_ref : TableReference)
  : outcome Path * effect :=
  match get_table client table_ref with
  | Raise e => (Raise e, mkEffect ∅ ∅ [EGetTable table_ref])
  | Ok table =>
      let p := csv_path repo_root table in
      let names := column_names table in
      let data := map (row_cells names) (yielded (row_source client table)) in
      if file_name_fits table
      then
        (match iter_error (row_source client table) with
         | None => Ok p
         | Some e => Raise e
         end,
         mkEffect (list_to_set (ancestors_and_self (OUTPUT_DIR repo_root)))
                  {[ p := csv_text writerow_text (map VStr names :: data) ]}
                  ([EGetTable table_ref; EMkdir (OUTPUT_DIR repo_root); EOpen p;
                    EWriteRow p (map VStr names)]
                   ++ list_rows_events table
                   ++ map (EWriteRow p) data ++ [EClose p]))
      else
        (Raise (OSError "File name too long"),
         mkEffect (list_to_set (ancestors_and_self (OUTPUT_DIR repo_root))) ∅
                  [EGetTable table_ref; EMkdir (OUTPUT_DIR repo_root); EOpen p])
  end.

(** The loop of [main] over the listed tables: it stops at the first
    export that raises. *)
Fixpoint loop_summary (client : Remote) (tables : list TableListItem)
  : outcome unit * effect :=
  match tables with
  | [] => (Ok tt, no_effect)
  | t :: rest =>
      match export_summary client (reference t) with
      | (Raise e, eff) => (Raise e, eff)
      | (Ok p, eff) =>
          let said :=
            mkEffect ∅ ∅ [EPrint ("Exported " ++ table_id (reference t) ++ " -> "
                                  ++ path_str p)] in
          match loop_summary client rest with
          | (r, eff_rest) => (r, and_then (and_then eff said) eff_rest)
          end
      end
  end.

Definition main_summary (remote : Remote) : outcome unit * effect :=
  let ds := mkDatasetReference PROJECT_ID DATASET_ID in
  match connect remote PROJECT_ID with
  | Raise e => (Raise e, mkEffect ∅ ∅ [EClient PROJECT_ID])
  | Ok _ =>
      match list_tables remote ds with
      | Raise e => (Raise e, mkEffect ∅ ∅ [EClient PROJECT_ID; EListTables ds])
      | Ok [] =>
          (Raise (SystemExit ("No tables found in " ++ PROJECT_ID ++ "." ++ DATASET_ID)),
           mkEffect ∅ ∅ [EClient PROJECT_ID; EListTables ds])
      | Ok tables =>
          match loop_summary remote tables with
          | (r, eff) =>
              (r,
               and_then
                 (mkEffect ∅ ∅
                    [EClient PROJECT_ID; EListTables ds;
                     EPrint ("Found " ++ pretty (length tables) ++ " tables in "
                             ++ PROJECT_ID ++ "." ++ DATASET_ID ++ ".")])
                 eff)
          end
      end
  end.

End Summary.

(** *** The default dialect of [csv.writer], for the worked examples

    [excel]: comma, double quote, doubled quotes inside a quoted field,
    [\r\n], minimal quoting (a field is quoted when it holds the
    delimiter, the quote character or a character of the line
    terminator; a record made of one empty field is written as two
    quotes). *)
Definition dquote : string := String "034"%char "".
Definition crlf : string := String "013"%char (String "010"%char "").

Fixpoint has_special (s : string) : bool :=
  match s with
  | "" => false
  | String c rest =>
      (Ascii.eqb c ","%char || Ascii.eqb c "034"%char
       || Ascii.eqb c "013"%char || Ascii.eqb c "010"%char)
      || has_special rest
  end.

Fixpoint double_quotes (s : string) : string :=
  match s with
  | "" => ""
  | String c rest =>
      if Ascii.eqb c "034"%char
      then String c (String c (double_quotes rest))
      else String c (double_quotes rest)
  end.

Definition excel_text (s : string) : string :=
  if has_special s then dquote ++ double_quotes s ++ dquote else s.

Definition excel_field (v : Value) : string :=
  match v with
  | VNone => ""
  | VStr s => excel_text s
  | VObj s => excel_text s
  end.

Definition excel_writerow (cells : list Value) : string :=
  match String.concat "," (map excel_field cells), cells with
  | "", [_] => dquote ++ dquote ++ crlf
  | record, _ => record ++ crlf
  end.

(** *** A worked example

    A dataset with two tables.  [orders] has two columns and two rows;
    the first row carries a field the schema does not name and a value
    with a comma in it, the second row has no [name].  [customers] has no
    rows.  The output directory already holds a stale [orders.csv]. *)
Definition demo_root : Path := ["srv"; "dbt-training"].

Definition orders_ref : TableReference :=
  mkTableReference PROJECT_ID DATASET_ID "orders".

Definition customers_ref : TableReference :=
  mkTableReference PROJECT_ID DATASET_ID "customers".

Definition orders : Table :=
  mkTable orders_ref [mkSchemaField "id" "INTEGER"; mkSchemaField "name" "STRING"].

Definition customers : Table :=
  mkTable customers_ref [mkSchemaField "email" "STRING"].

Definition order_1 : Row :=
  <["id" := VObj "1"]> (<["name" := VStr "a,b"]> (<["internal" := VStr "x"]> ∅)).

Definition order_2 : Row := <["id" := VObj "2"]> ∅.

Definition demo_service (listed : list TableListItem) (order_rows : RowIterator)
  : Remote :=
  mkRemote
    (fun _ => Ok tt)
    (fun _ => Ok listed)
    (fun ref =>
       if String.eqb (table_id ref) "orders" then Ok orders
       else if String.eqb (table_id ref) "customers" then Ok customers
       else Raise NotFound)
    (fun table =>
       if String.eqb (table_id (table_reference table)) "orders" then order_rows
       else StopIteration).

Definition demo_remote : Remote :=
  demo_service [mkTableListItem orders_ref; mkTableListItem customers_ref]
    (iter_of_list [order_1; order_2]).

Definition empty_remote : Remote := demo_service [] StopIteration.

(** The same dataset when the row source of [orders] breaks after the
    first row. *)
Definition flaky_remote : Remote :=
  demo_service
    [mkTableListItem customers_ref; mkTableListItem orders_ref;
     mkTableListItem customers_ref]
    (iter_failing_after [order_1] (ApiError "503 Service Unavailable")).

(** A service that lets the client in and refuses the listing. *)
Definition forbidden_remote : Remote :=
  mkRemote
    (fun _ => Ok tt)
    (fun _ => Raise (ApiError "403 Forbidden"))
    (fun _ => Raise NotFound)
    (fun _ => StopIteration).

(** A table whose name is legal for the warehouse and, with [.csv]
    appended, one byte too long for the file system; and a table that came
    without columns.  Neither has rows. *)
Definition long_id : string := string_of_list_ascii (repeat "t"%char 252).

Definition long_ref : TableReference :=
  mkTableReference PROJECT_ID DATASET_ID long_id.

Definition bare_ref : TableReference :=
  mkTableReference PROJECT_ID DATASET_ID "bare".

Definition odd_remote : Remote :=
  mkRemote
    (fun _ => Ok tt)
    (fun _ => Ok [mkTableListItem bare_ref; mkTableListItem long_ref])
    (fun ref =>
       if String.eqb (table_id ref) "bare" then Ok (mkTable bare_ref [])
       else Ok (mkTable ref [mkSchemaField "id" "INTEGER"]))
    (fun _ => StopIteration).


Definition orders_csv : Path := ["srv"; "dbt-training"; "exports"; DATASET_ID; "orders.csv"].

Definition customers_csv : Path :=
  ["srv"; "dbt-training"; "exports"; DATASET_ID; "customers.csv"].

Definition demo_world : World :=
  mkWorld (mkFS ∅ (<[orders_csv := "stale"]> ∅)) [].

End Exporter.

(** ** scripts/load_jsonl_to_bq.py *)

Module Loader.
Import Py.
Local Open Scope py_scope.

Definition PROJECT_ID : string := "saras-bigquery".
Definition DATASET_ID : string := "raw_shopify".
Definition TABLE_ID : string := "orders".

(** *** What the client library hands to the script *)

(** [bigquery.DatasetReference(project, dataset_id)] *)
Abbreviation DatasetReference := (string * string)%type.

Record Dataset : Type := mkDataset {
  dataset_reference : DatasetReference;
  location : option string
}.

Inductive SourceFormat : Type :=
| CSV
| NEWLINE_DELIMITED_JSON
| AVRO
| PARQUET.

Inductive WriteDisposition : Type :=
| WRITE_APPEND
| WRITE_TRUNCATE
| WRITE_EMPTY.

Record LoadJobConfig : Type := mkLoadJobConfig {
  source_format : SourceFormat;
  autodetect : bool;
  write_disposition : WriteDisposition
}.

(** A file open for reading: where it is and the records (lines) in it. *)
Record FileObj : Type := mkFileObj {
  fo_path : Path;
  fo_lines : list string
}.

Record LoadJob : Type := mkLoadJob {
  lj_source : FileObj;
  lj_destination : string;
  lj_config : LoadJobConfig;
  output_rows : option nat
}.

(** *** The world of the script *)

(** The warehouse: its datasets, and the rows of its tables under their
    full names. *)
Record Service : Type := mkService {
  datasets : gmap DatasetReference Dataset;
  tables : gmap string (list string)
}.

Inductive event : Type :=
| EClient (project : string)
| EGetDataset (ref : DatasetReference)
| ECreateDataset (ds : Dataset)
| ELoadTableFromFile (source : FileObj) (destination : string) (config : LoadJobConfig)
| EJobResult (job : LoadJob)
| EOpen (p : Path)
| EClose (p : Path)
| EPrint (line : string).

(** [requests] counts the calls made to the client library so far; it
    indexes the fault schedule below. *)
Record World : Type := mkWorld {
  local_files : gmap Path (list string);
  service : Service;
  requests : nat;
  trace : list event
}.

Definition log (ev : event) : M World unit :=
  fun w => (Ok tt, mkWorld (local_files w) (service w) (requests w) (trace w ++ [ev])).

Definition print (line : string) : M World unit := log (EPrint line).

(** [os.path.exists(p)] *)
Definition os_path_exists (p : Path) : M World bool :=
  fun w => (Ok (bool_decide (is_Some (local_files w !! p))), w).

(** [with open(p, "rb") as f: body f] *)
Definition with_open_rb {A : Type} (p : Path) (body : FileObj -> M World A) : M World A :=
  log (EOpen p) ;;
  fun w =>
    match local_files w !! p with
    | None => (Raise (OSError "No such file or directory"), w)
    | Some lines => finally (body (mkFileObj p lines)) (log (EClose p)) w
    end.

(** What a load job does to the rows of its destination when it
    succeeds. *)
Definition loaded_rows (disposition : WriteDisposition) (old new : list string)
  : outcome (list string) :=
  match disposition with
  | WRITE_TRUNCATE => Ok new
  | WRITE_APPEND => Ok (old ++ new)%list
  | WRITE_EMPTY =>
      match old with
      | [] => Ok new
      | _ => Raise Conflict
      end
  end.

Section Script.

(** The faults of the run: [faults n] is the error, if any, that the
    [n]-th call to the client library ends with whatever the state of the
    warehouse (network, permission, quota, a failing job). *)
Variable faults : nat -> option exn.

(** The directory that holds [scripts/]:
    [os.path.join(os.path.dirname(__file__), "..")], made absolute. *)
Variable repo_root : Path.

Definition FILE_PATH : Path :=
  joinpath (joinpath repo_root "RAW_DATASETS") "bquxjob_12dd921d_19c2829b22b_yourgpt.jsonl".

(** One call to the client library: it is logged, it fails when the
    schedule says so, and otherwise the warehouse serves it. *)
Definition request {A : Type} (ev : event) (serve : Service -> outcome A * Service)
  : M World A :=
  fun w =>
    let w1 := mkWorld (local_files w) (service w) (S (requests w)) (trace w ++ [ev]) in
    match faults (requests w) with
    | Some e => (Raise e, w1)
    | None =>
        match serve (service w) with
        | (r, sv) => (r, mkWorld (local_files w1) sv (requests w1) (trace w1))
        end
    end.

(** [bigquery.Client(project=...)] *)
Definition Client (project : string) : M World unit :=
  request (EClient project) (fun sv => (Ok tt, sv)).

(** [client.get_dataset(ref)] *)
Definition get_dataset (ref : DatasetReference) : M World Dataset :=
  request (EGetDataset ref)
    (fun sv =>
       match datasets sv !! ref with
       | Some ds => (Ok ds, sv)
       | None => (Raise NotFound, sv)
       end).

(** [client.create_dataset(dataset, exists_ok=...)]: the library posts
    the dataset; when the service answers [Conflict] and [exists_ok] is
    set, it fetches the existing dataset instead. *)
Definition create_dataset (dataset : Dataset) (exists_ok : bool) : M World Dataset :=
  fun w =>
    match request (ECreateDataset dataset)
            (fun sv =>
               match datasets sv !! dataset_reference dataset with
               | Some _ => (Raise Conflict, sv)
               | None =>
                   (Ok dataset,
                    mkService (<[dataset_reference dataset := dataset]> (datasets sv))
                              (tables sv))
               end) w with
    | (Raise Conflict, w1) =>
        if exists_ok then get_dataset (dataset_reference dataset) w1
        else (Raise Conflict, w1)
    | other => other
    end.

(** [client.load_table_from_file(source_file, table_ref, job_config=...)] *)
Definition load_table_from_file (source_file : FileObj) (destination : string)
    (config : LoadJobConfig) : M World LoadJob :=
  request (ELoadTableFromFile source_file destination config)
    (fun sv => (Ok (mkLoadJob source_file destination config None), sv)).

(** [job.result()]: returns once the job has reached a terminal state.
    A job that succeeded has loaded every record of the file by then, as
    its write disposition says, and knows how many; a job that failed
    (a malformed record, say) is a fault of this call. *)
Definition result (job : LoadJob) : M World LoadJob :=
  request (EJobResult job)
    (fun sv =>
       let old := default [] (tables sv !! lj_destination job) in
       match loaded_rows (write_disposition (lj_config job)) old
               (fo_lines (lj_source job)) with
       | Ok rows =>
           (Ok (mkLoadJob (lj_source job) (lj_destination job) (lj_config job)
                          (Some (length (fo_lines (lj_source job))))),
            mkService (datasets sv) (<[lj_destination job := rows]> (tables sv)))
       | Raise e => (Raise e, sv)
       end).

Definition show_rows (n : option nat) : string :=
  match n with
  | Some k => pretty k
  | None => "None"
  end.

(** Lines 17 to 26: look the dataset up, create it when the lookup
    fails. *)
Definition ensure_dataset (dataset_ref : DatasetReference) : M World Dataset :=
  try_except_Exception
    (dataset <- get_dataset dataset_ref ;;
     print ("Dataset " ++ DATASET_ID ++ " already exists.") ;;
     ret dataset)
    (print ("Creating dataset " ++ DATASET_ID ++ " in project " ++ PROJECT_ID ++ "...") ;;
     let dataset := mkDataset dataset_ref None in
     let dataset := mkDataset (dataset_reference dataset) (Some "US") in
     create_dataset dataset true ;;
     print "Dataset created." ;;
     ret dataset).

(** Lines 29 to 34. *)
Definition table_ref : string := PROJECT_ID ++ "." ++ DATASET_ID ++ "." ++ TABLE_ID.

Definition job_config : LoadJobConfig :=
  mkLoadJobConfig NEWLINE_DELIMITED_JSON true WRITE_TRUNCATE.

(** Lines 36 to 41: submit the file as a load job, wait for the job,
    report the rows. *)
Definition load_file : M World unit :=
  print ("Loading " ++ path_str FILE_PATH ++ " into " ++ table_ref ++ " ...") ;;
  job <- with_open_rb FILE_PATH (fun source_file =>
           job <- load_table_from_file source_file table_ref job_config ;;
           result job) ;;
  print ("Loaded " ++ show_rows (output_rows job) ++ " rows into " ++ table_ref ++ ".").

(** The script, top to bottom. *)
Definition script : M World unit :=
  found <- os_path_exists FILE_PATH ;;
  if negb found then raise (SystemExit ("File not found: " ++ path_str FILE_PATH))
  else
    Client PROJECT_ID ;;
    let dataset_ref := (PROJECT_ID, DATASET_ID) in
    ensure_dataset dataset_ref ;;
    load_file.

End Script.

(** A computation that leaves the local files alone and logs only events
    accepted by [P]. *)
Definition logs_only {A : Type} (P : event -> bool) (c : M World A) : Prop :=
  forall w,
    local_files (snd (c w)) = local_files w
    /\ exists evs, trace (snd (c w)) = (trace w ++ evs)%list /\ forallb P evs = true.

(** A computation under which a dataset that exists stays as it is, and
    one that never ends with [Conflict]. *)
Definition keeps_datasets {A : Type} (c : M World A) : Prop :=
  forall w ref ds,
    datasets (service w) !! ref = Some ds ->
    datasets (service (snd (c w))) !! ref = Some ds.

Definition never_conflict {A : Type} (c : M World A) : Prop :=
  forall w, fst (c w) <> Raise Conflict.

(** The part of the world a run is entitled to change: the dataset
    [raw_shopify], which it may create in [US] when it is not there, and
    the rows of the table [orders]. *)
Definition service_within (sv sv' : Service) : Prop :=
  (forall ref,
     datasets sv' !! ref = datasets sv !! ref
     \/ (ref = (PROJECT_ID, DATASET_ID)
         /\ datasets sv !! ref = None
         /\ datasets sv' !! ref = Some (mkDataset (PROJECT_ID, DATASET_ID) (Some "US"))))
  /\ (forall t, t <> table_ref -> tables sv' !! t = tables sv !! t).

Definition within_footprint (w w' : World) : Prop :=
  local_files w' = local_files w /\ service_within (service w) (service w').

Definition stays_within {A : Type} (c : M World A) : Prop :=
  forall w, within_footprint w (snd (c w)).

(** The events of the dataset step (client included), the closing
    report, and the opening and closing of the source file. *)
Definition is_dataset_step (ev : event) : bool :=
  match ev with
  | EClient _ | EGetDataset _ | ECreateDataset _ => true
  | EPrint line =>
      String.eqb line "Dataset raw_shopify already exists."
      || String.eqb line "Creating dataset raw_shopify in project saras-bigquery..."
      || String.eqb line "Dataset created."
  | _ => false
  end.

Definition is_report (ev : event) : bool :=
  match ev with
  | EPrint line => String.prefix "Loaded " line
  | _ => false
  end.

Definition is_open_or_close (ev : event) : bool :=
  match ev with
  | EOpen _ | EClose _ => true
  | _ => false
  end.

Definition is_create (ev : event) : bool :=
  match ev with
  | ECreateDataset _ => true
  | _ => false
  end.

Definition is_load (ev : event) : bool :=
  match ev with
  | ELoadTableFromFile _ _ _ => true
  | _ => false
  end.

(** *** A worked example

    The source file holds two records and the table an old one.  In
    [lookup_forbidden] the second call of a run, the dataset lookup, is
    refused by the service. *)
Definition demo_root : Path := ["srv"; "dbt-training"].

Definition demo_file : Path :=
  ["srv"; "dbt-training"; "RAW_DATASETS"; "bquxjob_12dd921d_19c2829b22b_yourgpt.jsonl"].

Definition demo_service (with_dataset : bool) : Service :=
  mkService
    (if with_dataset
     then <[(PROJECT_ID, DATASET_ID) := mkDataset (PROJECT_ID, DATASET_ID) (Some "EU")]> ∅
     else ∅)
    (<["saras-bigquery.raw_shopify.orders" := ["{old}"]]> ∅).

Definition demo_world (with_file with_dataset : bool) : World :=
  mkWorld (if with_file then <[demo_file := ["{a}"; "{b}"]]> ∅ else ∅)
          (demo_service with_dataset) 0 [].

Definition no_faults : nat -> option exn := fun _ => None.

Definition lookup_forbidden : nat -> option exn :=
  fun n => if Nat.eqb n 1 then Some (ApiError "403 Forbidden") else None.

End Loader.

(** * Strings *)

Module StringFacts.

Lemma append_cons (c : ascii) (s t : string) : String c s ++ t = String c (s ++ t).
Proof. reflexivity. Qed.

Lemma append_nil_l (s : string) : "" ++ s = s.
Proof. reflexivity. Qed.

Lemma append_nil_r (s : string) : s ++ "" = s.
Proof. induction s as [| c s IH]; [done | by rewrite append_cons, IH]. Qed.

Lemma append_assoc (s t u : string) : (s ++ t) ++ u = s ++ (t ++ u).
Proof. induction s as [| c s IH]; [done | by rewrite !append_cons, IH]. Qed.

Lemma prefix_append (s t : string) : String.prefix s (s ++ t) = true.
Proof.
  induction s as [| c s IH].
  - by destruct t.
  - rewrite append_cons. simpl.
    destruct (Ascii.ascii_dec c c) as [_ | ne]; [exact IH | done].
Qed.

Lemma length_append (s t : string) :
  String.length (s ++ t) = String.length s + String.length t.
Proof. induction s as [| c s IH]; [done | by rewrite append_cons; simpl; rewrite IH]. Qed.

Lemma append_inj_r (s1 s2 t : string) : s1 ++ t = s2 ++ t -> s1 = s2.
Proof.
  revert s2. induction s1 as [| c s1 IH]; intros [| c2 s2] H.
  - done.
  - apply (f_equal String.length) in H.
    rewrite append_nil_l, append_cons in H. simpl in H. rewrite length_append in H. lia.
  - apply (f_equal String.length) in H.
    rewrite append_nil_l, append_cons in H. simpl in H. rewrite length_append in H. lia.
  - rewrite !append_cons in H. injection H as -> H. by rewrite (IH s2 H).
Qed.

End StringFacts.

(** * Properties of the exporter *)

Module ExporterSpec.
Import Py Exporter.
Local Open Scope py_scope.
Local Open Scope list_scope.

Section Facts.
Variable writerow_text : list Value -> string.
Variable repo_root : Path.

Local Abbreviation OUTPUT_DIR := (Exporter.OUTPUT_DIR repo_root).
Local Abbreviation writerow := (Exporter.writerow writerow_text).
Local Abbreviation csv_text := (Exporter.csv_text writerow_text).
Local Abbreviation export_table := (Exporter.export_table writerow_text repo_root).
Local Abbreviation main := (Exporter.main writerow_text repo_root).

Lemma file_text_insert (p : Path) (s : string) (d : gset Path) (m : gmap Path string)
    (tr : list event) :
  file_text p (mkWorld (mkFS d (<[p := s]> m)) tr) = s.
Proof. unfold file_text; simpl. by rewrite lookup_insert_eq. Qed.

(** The row loop: every row yielded is written, in order, after what the
    file already holds; the loop ends as the iterator ends. *)
Lemma for_rows_writerow (p : Path) (names : list string) (rows : RowIterator) :
  forall (d : gset Path) (m : gmap Path string) (s : string) (tr : list event),
    for_rows rows (fun row => writerow p (map (fun n => Row_get row n) names))
      (mkWorld (mkFS d (<[p := s]> m)) tr)
    = (match iter_error rows with
       | None => Ok tt
       | Some e => Raise e
       end,
       mkWorld
         (mkFS d (<[p := s +:+ csv_text (map (fun row => map (fun n => Row_get row n) names)
                                             (yielded rows))]> m))
         (tr ++ map (EWriteRow p)
                    (map (fun row => map (fun n => Row_get row n) names) (yielded rows)))).
Proof.
  induction rows as [| row rest IH | e]; intros d m s tr; simpl.
  - unfold ret. by rewrite StringFacts.append_nil_r, app_nil_r.
  - unfold bind at 1. unfold Exporter.writerow at 1, bind, log; simpl.
    rewrite file_text_insert, insert_insert_eq, IH.
    by rewrite <- app_assoc, StringFacts.append_assoc.
  - unfold raise. by rewrite StringFacts.append_nil_r, app_nil_r.
Qed.

(** *** Effects compose *)

Lemma apply_no_effect (w : World) : apply no_effect w = w.
Proof.
  destruct w as [[d m] tr]. unfold apply, no_effect; simpl.
  by rewrite (right_id_L ∅ (∪)), (left_id_L ∅ (∪)), app_nil_r.
Qed.

Lemma apply_and_then (e1 e2 : effect) (w : World) :
  apply e2 (apply e1 w) = apply (and_then e1 e2) w.
Proof.
  unfold apply, and_then; simpl.
  by rewrite (assoc_L (∪) (dirs (fs w))), (assoc_L (∪) (left_files e2)), app_assoc.
Qed.

Lemma apply_log (evs : list event) (w : World) :
  apply (mkEffect ∅ ∅ evs) w = mkWorld (fs w) (trace w ++ evs).
Proof.
  destruct w as [[d m] tr]. unfold apply; simpl.
  by rewrite (right_id_L ∅ (∪)), (left_id_L ∅ (∪)).
Qed.

(** *** One export *)

Lemma name_fits_csv_path (table : Table) :
  name_fits (csv_path repo_root table) = file_name_fits table.
Proof. unfold name_fits, csv_path, joinpath, file_name_fits, csv_name. by rewrite last_snoc. Qed.

(** Asking for the rows and going through them is going through the row
    source, after what [list_rows] logs. *)
Lemma list_rows_for_rows (client : Remote) (table : Table) (body : Row -> M World unit)
    (w : World) :
  bind (list_rows client table) (fun rows => for_rows rows body) w
  = for_rows (row_source client table) body
      (mkWorld (fs w) (trace w ++ list_rows_events table)).
Proof.
  unfold Exporter.list_rows, row_source, list_rows_events.
  destruct (schema table) as [| field fields].
  - unfold bind at 1. unfold bind at 1. unfold log at 1. cbv beta iota.
    unfold bind at 1. unfold bind at 1. unfold log at 1, lift at 1. cbv beta iota.
    cbn [fs trace].
    destruct (get_table client (table_reference table)) as [table' | e];
      cbn [for_rows]; unfold ret, raise; by rewrite <- app_assoc.
  - unfold bind at 1. unfold bind at 1. unfold log at 1. cbv beta iota.
    unfold ret. done.
Qed.

Lemma export_table_run (client : Remote) (table_ref : TableReference) (w : World) :
  export_table client table_ref w
  = (fst (export_summary writerow_text repo_root client table_ref),
     apply (snd (export_summary writerow_text repo_root client table_ref)) w).
Proof.
  unfold Exporter.export_table, export_summary.
  destruct (get_table client table_ref) as [table | e] eqn:Hget.
  - unfold bind at 1. unfold bind at 1. unfold log at 1, lift at 1. simpl.
    unfold bind at 1. unfold mkdir_parents_exist_ok, bind at 1, log at 1. simpl.
    unfold bind at 1. unfold with_open_w, bind at 1, open_w, bind at 1, log at 1. simpl.
    fold (csv_path repo_root table). rewrite name_fits_csv_path.
    destruct (file_name_fits table).
    + unfold finally, bind at 1. unfold Exporter.writerow at 1, bind at 1, log at 1. simpl.
      rewrite list_rows_for_rows. cbn [fs trace].
      rewrite file_text_insert, insert_insert_eq, StringFacts.append_nil_l.
      rewrite for_rows_writerow.
      unfold close, log, ret, apply, row_cells; simpl.
      rewrite insert_union_singleton_l.
      rewrite <- !app_assoc. simpl.
      by destruct (iter_error (row_source client table)).
    + unfold raise, apply. cbn [fst snd fs trace dirs files made_dirs left_files logged].
      rewrite (left_id_L ∅ (∪)). by rewrite <- !app_assoc.
  - unfold bind at 1. unfold bind at 1. unfold log at 1, lift at 1. simpl.
    by rewrite apply_log.
Qed.

Lemma written_rows_app (p : Path) (a b : list event) :
  written_rows p (a ++ b) = written_rows p a ++ written_rows p b.
Proof.
  induction a as [| ev a IH]; [done |].
  destruct ev; simpl; try exact IH.
  case_decide; simpl; by rewrite IH.
Qed.

Lemma written_rows_writes (p : Path) (data : list (list Value)) :
  written_rows p (map (EWriteRow p) data) = data.
Proof.
  induction data as [| cells data IH]; [done |].
  simpl. rewrite decide_True by done. by rewrite IH.
Qed.

Lemma written_rows_list_rows (p : Path) (table : Table) :
  written_rows p (list_rows_events table) = [].
Proof. unfold list_rows_events. by destruct (schema table). Qed.

(** The file, the log and the result of an export whose metadata fetch
    succeeded and whose file could be opened. *)
Lemma export_table_fetched (client : Remote) (table_ref : TableReference)
    (table : Table) (w : World) :
  get_table client table_ref = Ok table ->
  file_name_fits table = true ->
  let p := csv_path repo_root table in
  let records :=
    map VStr (column_names table)
    :: map (row_cells (column_names table)) (yielded (row_source client table)) in
  fst (export_table client table_ref w)
  = match iter_error (row_source client table) with
    | None => Ok p
    | Some e => Raise e
    end
  /\ files (fs (snd (export_table client table_ref w)))
     = <[p := csv_text records]> (files (fs w))
  /\ exists evs,
       trace (snd (export_table client table_ref w)) = trace w ++ evs
       /\ written_rows p evs = records
       /\ last evs = Some (EClose p).
Proof.
  intros Hget Hfit p records. rewrite export_table_run.
  unfold export_summary. rewrite Hget, Hfit. cbn [fst snd].
  split; [done |]. split.
  - unfold apply; simpl. by rewrite insert_union_singleton_l.
  - eexists. split; [reflexivity |]. cbn [logged]. split.
    + change (?a :: ?b :: ?c :: ?d :: nil ++ ?r) with ([a; b; c; d] ++ r).
      rewrite !written_rows_app, written_rows_writes, written_rows_list_rows. simpl.
      rewrite decide_True by done. by rewrite app_nil_r.
    + by rewrite !app_assoc, last_snoc.
Qed.

(** The file name as the statements below write it. *)
Lemma file_name_fits_le (table : Table) :
  String.length (table_id (table_reference table) +:+ ".csv") <= NAME_MAX ->
  file_name_fits table = true.
Proof. intros H. unfold file_name_fits, csv_name. by apply Nat.leb_le. Qed.

(** *** The whole run *)

Lemma loop_run (client : Remote) (tables : list TableListItem) :
  forall w : World,
    for_each tables (fun t =>
      path <- export_table client (reference t) ;;
      print ("Exported " +:+ table_id (reference t) +:+ " -> " +:+ path_str path)) w
    = (fst (loop_summary writerow_text repo_root client tables),
       apply (snd (loop_summary writerow_text repo_root client tables)) w).
Proof.
  induction tables as [| t rest IH]; intros w; simpl.
  - unfold ret. by rewrite apply_no_effect.
  - unfold bind at 1. unfold bind at 1. rewrite export_table_run.
    destruct (export_summary writerow_text repo_root client (reference t))
      as [[p | e] eff]; simpl; [| done].
    unfold print, log; simpl. rewrite IH.
    destruct (loop_summary writerow_text repo_root client rest) as [r eff_rest]; simpl.
    f_equal. rewrite <- !apply_and_then. f_equal.
    by rewrite apply_log.
Qed.

Lemma main_run (remote : Remote) (w : World) :
  main remote w
  = (fst (main_summary writerow_text repo_root remote),
     apply (snd (main_summary writerow_text repo_root remote)) w).
Proof.
  unfold Exporter.main, main_summary.
  unfold bind at 1. unfold log at 1. simpl.
  unfold bind at 1. unfold lift at 1.
  destruct (connect remote PROJECT_ID) as [[] | e]; simpl.
  2: { by rewrite apply_log. }
  unfold bind at 1. unfold bind at 1. unfold log at 1, lift at 1. simpl.
  destruct (list_tables remote _) as [tables | e]; simpl.
  2: { by rewrite apply_log, <- app_assoc. }
  destruct tables as [| t rest].
  - unfold raise. cbn [fst snd]. by rewrite apply_log, <- app_assoc.
  - unfold bind at 1. unfold print at 1, log at 1.
    cbv beta iota. rewrite loop_run.
    destruct (loop_summary writerow_text repo_root remote (t :: rest)) as [r eff].
    cbn [fst snd]. f_equal. rewrite <- apply_and_then. f_equal.
    rewrite apply_log. cbn [fs trace]. by rewrite <- !app_assoc.
Qed.

(** *** The file of one table *)

Lemma csv_path_eq (table : Table) :
  csv_path repo_root table
  = repo_root ++ ["exports"; DATASET_ID] ++ [table_id (table_reference table) +:+ ".csv"].
Proof. unfold csv_path, Exporter.OUTPUT_DIR, joinpath. by rewrite <- !app_assoc. Qed.

Lemma export_writes_every_row_aux (client : Remote) (table_ref : TableReference)
    (table : Table) (w : World) :
  get_table client table_ref = Ok table ->
  String.length (table_id (table_reference table) +:+ ".csv") <= NAME_MAX ->
  let names := map name (schema table) in
  let p := repo_root ++ ["exports"; DATASET_ID]
           ++ [table_id (table_reference table) +:+ ".csv"] in
  let line := fun row : Row => map (fun n => default VNone (row !! n)) names in
  let records := map VStr names :: map line (yielded (row_source client table)) in
  let w' := snd (export_table client table_ref w) in
  files (fs w') !! p = Some (csv_text records)
  /\ exists evs, trace w' = trace w ++ evs /\ written_rows p evs = records.
Proof.
  intros Hget Hfit names p line records w'.
  destruct (export_table_fetched client table_ref table w Hget
              (file_name_fits_le table Hfit))
    as (_ & Hfiles & evs & Htr & Hrows & _).
  rewrite (csv_path_eq table) in *. fold p in Hfiles, Hrows.
  split.
  - subst w'. by rewrite Hfiles, lookup_insert_eq.
  - exists evs. split; [exact Htr | exact Hrows].
Qed.

(** C1: every row the source returns becomes one record of the file, in
    the order of the source, after the header; the cells of a record are
    the row's values under the column names, in the order of the header,
    [None] standing in for a column the row has no value for.  This is
    for a table that is exported: its metadata was fetched and its file
    could be opened. *)
Theorem export_writes_every_row (client : Remote) (table_ref : TableReference)
    (table : Table) (w : World) :
  get_table client table_ref = Ok table ->
  String.length (table_id (table_reference table) +:+ ".csv") <= NAME_MAX ->
  let names := map name (schema table) in
  let p := repo_root ++ ["exports"; DATASET_ID]
           ++ [table_id (table_reference table) +:+ ".csv"] in
  let rows := yielded (row_source client table) in
  let line := fun row : Row => map (fun n => default VNone (row !! n)) names in
  let w' := snd (export_table client table_ref w) in
  files (fs w') !! p
  = Some (writerow_text (map VStr names) +:+ csv_text (map line rows))
  /\ (exists evs,
        trace w' = trace w ++ evs
        /\ written_rows p evs = map VStr names :: map line rows)
  /\ (iter_error (row_source client table) = None ->
      fst (export_table client table_ref w) = Ok p).
Proof.
  intros Hget Hfit names p rows line w'.
  destruct (export_writes_every_row_aux client table_ref table w Hget Hfit)
    as (Hfile & Hlog).
  split; [exact Hfile |]. split; [exact Hlog |].
  intros Hend.
  destruct (export_table_fetched client table_ref table w Hget
              (file_name_fits_le table Hfit)) as (Hres & _).
  by rewrite Hres, Hend, (csv_path_eq table).
Qed.

(** C2: the file of a table that is exported (its metadata was fetched
    and its file could be opened) starts with the header record, and the
    header is the list of the column names in the order of the schema that
    [get_table] returned for this export, whatever the file held before
    and whatever the row source does afterwards. *)
Theorem header_is_schema_in_order (client : Remote) (table_ref : TableReference)
    (table : Table) (w : World) :
  get_table client table_ref = Ok table ->
  String.length (table_id (table_reference table) +:+ ".csv") <= NAME_MAX ->
  let names := map name (schema table) in
  let p := repo_root ++ ["exports"; DATASET_ID]
           ++ [table_id (table_reference table) +:+ ".csv"] in
  let w' := snd (export_table client table_ref w) in
  (exists rest, files (fs w') !! p = Some (writerow_text (map VStr names) +:+ rest))
  /\ (exists evs,
        trace w' = trace w ++ evs
        /\ head (written_rows p evs) = Some (map VStr names)).
Proof.
  intros Hget Hfit names p w'.
  destruct (export_writes_every_row_aux client table_ref table w Hget Hfit)
    as (Hfile & evs & Htr & Hrows).
  subst names p w'.
  split.
  - eexists. exact Hfile.
  - exists evs. split; [exact Htr |]. by rewrite Hrows.
Qed.

(** What [export_table] does when the file system refuses the name of the
    file: it stops at the opening with the error of the file system, the
    directory made, no file touched, nothing to close. *)
Lemma export_table_name_too_long (client : Remote) (table_ref : TableReference)
    (table : Table) (w : World) :
  get_table client table_ref = Ok table ->
  NAME_MAX < String.length (table_id (table_reference table) +:+ ".csv") ->
  export_table client table_ref w
  = (Raise (OSError "File name too long"),
     mkWorld (mkFS (dirs (fs w) ∪ list_to_set (ancestors_and_self OUTPUT_DIR))
                   (files (fs w)))
             (trace w ++ [EGetTable table_ref; EMkdir OUTPUT_DIR;
                          EOpen (csv_path repo_root table)])).
Proof.
  intros Hget Hlong. rewrite export_table_run. unfold export_summary. rewrite Hget.
  assert (Hfit : file_name_fits table = false).
  { unfold file_name_fits, csv_name. apply Nat.leb_gt. exact Hlong. }
  rewrite Hfit. cbn [fst snd]. unfold apply. cbn [made_dirs left_files logged].
  by rewrite (left_id_L ∅ (∪)).
Qed.

(** C9 (amended): when the row source yields nothing and the name of the
    file fits the file system, [export_table] returns the path of the
    file, and the file, new or already there, holds the header record and
    nothing else; no other file changes. *)
Theorem empty_table_header_only (client : Remote) (table_ref : TableReference)
    (table : Table) (w : World) :
  get_table client table_ref = Ok table ->
  String.length (table_id (table_reference table) +:+ ".csv") <= NAME_MAX ->
  row_source client table = StopIteration ->
  let names := map name (schema table) in
  let p := repo_root ++ ["exports"; DATASET_ID]
           ++ [table_id (table_reference table) +:+ ".csv"] in
  fst (export_table client table_ref w) = Ok p
  /\ files (fs (snd (export_table client table_ref w))) !! p
     = Some (writerow_text (map VStr names))
  /\ forall q, q <> p ->
       files (fs (snd (export_table client table_ref w))) !! q = files (fs w) !! q.
Proof.
  intros Hget Hfit Hnone names p.
  destruct (export_table_fetched client table_ref table w Hget
              (file_name_fits_le table Hfit))
    as (Hres & Hfiles & _).
  rewrite (csv_path_eq table) in *. fold p in Hres, Hfiles.
  rewrite Hnone in *. simpl in *.
  split; [exact Hres |]. rewrite Hfiles. split.
  - rewrite lookup_insert_eq. by rewrite StringFacts.append_nil_r.
  - intros q Hq. by rewrite lookup_insert_ne.
Qed.

(** C10: for a table that is exported (its metadata was fetched and its
    file could be opened), every record written, the header included, has
    one cell per column of the schema; the cell of a data record under a
    column is the value the row has under that name, [None] when it has
    none, so a field of the row that the schema does not name goes
    nowhere.  The file is made of these records and nothing else. *)
Theorem every_record_has_header_width (client : Remote) (table_ref : TableReference)
    (table : Table) (w : World) :
  get_table client table_ref = Ok table ->
  String.length (table_id (table_reference table) +:+ ".csv") <= NAME_MAX ->
  let names := map name (schema table) in
  let p := repo_root ++ ["exports"; DATASET_ID]
           ++ [table_id (table_reference table) +:+ ".csv"] in
  let w' := snd (export_table client table_ref w) in
  exists evs,
    trace w' = trace w ++ evs
    /\ files (fs w') !! p = Some (csv_text (written_rows p evs))
    /\ Forall (fun cells => length cells = length names) (written_rows p evs)
    /\ forall i row,
         yielded (row_source client table) !! i = Some row ->
         exists cells,
           written_rows p evs !! S i = Some cells
           /\ forall j n, names !! j = Some n ->
                cells !! j = Some (default VNone (row !! n)).
Proof.
  intros Hget Hfit names p w'.
  destruct (export_writes_every_row_aux client table_ref table w Hget Hfit)
    as (Hfile & evs & Htr & Hrows).
  subst names p w'.
  exists evs. split; [exact Htr |]. rewrite Hrows. split; [exact Hfile |]. split.
  - constructor.
    + by rewrite length_map.
    + apply Forall_forall. intros cells Hin.
      apply list_elem_of_fmap in Hin as (row & -> & _).
      by rewrite length_map.
  - intros i row Hi. eexists. split.
    + simpl. rewrite list_lookup_fmap, Hi. reflexivity.
    + intros j n Hj. by rewrite list_lookup_fmap, Hj.
Qed.

(** *** The whole run: halting, failing, running again *)

(** C4: a dataset without tables makes [main] raise [SystemExit] with the
    message [No tables found in <project>.<dataset>] (exit status 1)
    right after the listing: no directory is made, no file is opened or
    written, the file system is as it was. *)
Theorem no_tables_halts_before_any_write (remote : Remote) (w : World) :
  connect remote PROJECT_ID = Ok tt ->
  list_tables remote (mkDatasetReference PROJECT_ID DATASET_ID) = Ok [] ->
  fst (main remote w)
  = Raise (SystemExit "No tables found in saras-bigquery.dbt_training_marts")
  /\ exit_status (fst (main remote w)) <> 0
  /\ stderr_message (fst (main remote w))
     = Some "No tables found in saras-bigquery.dbt_training_marts"
  /\ fs (snd (main remote w)) = fs w
  /\ exists evs,
       trace (snd (main remote w)) = trace w ++ evs
       /\ Forall (fun ev => is_file_op ev = false) evs.
Proof.
  intros Hconn Hlist. rewrite main_run. unfold main_summary.
  rewrite Hconn, Hlist. cbn [fst snd]. rewrite apply_log. cbn [fs trace].
  split; [reflexivity |]. split; [done |]. split; [reflexivity |]. split; [done |].
  eexists. split; [reflexivity |]. by repeat constructor.
Qed.

(** C7: what a run leaves in the file system is decided by the remote
    service alone: the files it writes get the same text whatever was
    there before, so a second run against the same service leaves every
    file, byte for byte, as the first run left it, and ends the same way. *)
Theorem export_is_idempotent (remote : Remote) :
  (exists written : gmap Path string,
     forall w, files (fs (snd (main remote w))) = written ∪ files (fs w))
  /\ (forall w, fs (snd (main remote (snd (main remote w)))) = fs (snd (main remote w)))
  /\ (forall w1 w2, fst (main remote w1) = fst (main remote w2)).
Proof.
  split; [| split].
  - exists (left_files (snd (main_summary writerow_text repo_root remote))).
    intros w. by rewrite main_run.
  - intros w. rewrite !main_run. cbn [fst snd]. unfold apply. cbn [fs dirs files].
    f_equal.
    + by rewrite <- (assoc_L (∪)), (idemp_L (∪)).
    + by rewrite (assoc_L (∪)), (idemp_L (∪)).
  - intros w1 w2. by rewrite !main_run.
Qed.

Lemma printed_app (a b : list event) : printed (a ++ b) = printed a ++ printed b.
Proof.
  induction a as [| ev a IH]; [done |]. destruct ev; simpl; by rewrite ?IH.
Qed.

Lemma fetched_app (a b : list event) : fetched (a ++ b) = fetched a ++ fetched b.
Proof.
  induction a as [| ev a IH]; [done |]. destruct ev; simpl; by rewrite ?IH.
Qed.

Lemma printed_writes (p : Path) (data : list (list Value)) :
  printed (map (EWriteRow p) data) = [].
Proof. induction data as [| cells data IH]; [done | exact IH]. Qed.

Lemma fetched_writes (p : Path) (data : list (list Value)) :
  fetched (map (EWriteRow p) data) = [].
Proof. induction data as [| cells data IH]; [done | exact IH]. Qed.

(** One export prints nothing; it fetches its table, and once more when
    [list_rows] is reached for a table without columns. *)
Lemma export_summary_log (remote : Remote) (t : TableListItem) :
  printed (logged (snd (export_summary writerow_text repo_root remote (reference t))))
  = []
  /\ fetched (logged (snd (export_summary writerow_text repo_root remote (reference t))))
     = export_fetches remote t.
Proof.
  unfold export_summary, export_fetches.
  destruct (get_table remote (reference t)) as [table | e]; [| done].
  destruct (file_name_fits table).
  - cbn [snd logged]. unfold list_rows_events.
    change (?a :: ?b :: ?c :: ?d :: nil ++ ?r) with ([a; b; c; d] ++ r).
    rewrite !printed_app, !fetched_app, printed_writes, fetched_writes.
    by destruct (schema table).
  - by destruct (schema table).
Qed.

Lemma exports_well_summary (remote : Remote) (t : TableListItem) :
  exports_well remote t ->
  exists p, fst (export_summary writerow_text repo_root remote (reference t)) = Ok p.
Proof.
  intros (table & Hget & Hfit & Hend). unfold export_summary.
  rewrite Hget, Hfit, Hend. by eexists.
Qed.

Lemma export_fails_summary (remote : Remote) (t : TableListItem) (e : exn) :
  export_fails remote t e ->
  fst (export_summary writerow_text repo_root remote (reference t)) = Raise e.
Proof.
  unfold export_summary. intros [Hget | (table & Hget & Hfit & Hend)]; rewrite Hget;
    [done |].
  by rewrite Hfit, Hend.
Qed.

(** The loop over [pre ++ t :: post] when the exports of [pre] end well
    and that of [t] raises: it is the loop over [pre] followed by the
    export of [t], and nothing of [post]. *)
Lemma loop_summary_stops (remote : Remote) (pre post : list TableListItem)
    (t : TableListItem) (e : exn) :
  Forall (exports_well remote) pre ->
  export_fails remote t e ->
  fst (loop_summary writerow_text repo_root remote pre) = Ok tt
  /\ fetched (logged (snd (loop_summary writerow_text repo_root remote pre)))
     = flat_map (export_fetches remote) pre
  /\ fst (loop_summary writerow_text repo_root remote (pre ++ t :: post)) = Raise e
  /\ forall w,
       apply (snd (loop_summary writerow_text repo_root remote (pre ++ t :: post))) w
       = apply (snd (export_summary writerow_text repo_root remote (reference t)))
           (apply (snd (loop_summary writerow_text repo_root remote pre)) w).
Proof.
  intros Hpre Hfail. apply (export_fails_summary remote t e) in Hfail.
  induction Hpre as [| t' pre Hwell _ IH].
  - simpl.
    destruct (export_summary writerow_text repo_root remote (reference t))
      as [[p | e'] eff]; simpl in *; [done |].
    repeat split; [congruence |]. intros w. by rewrite apply_no_effect.
  - destruct IH as (IHres & IHfetched & IHfail & IHapply).
    pose proof (export_summary_log remote t') as [_ Hone].
    apply exports_well_summary in Hwell as (p & Hp).
    simpl.
    destruct (export_summary writerow_text repo_root remote (reference t'))
      as [r' eff']; simpl in Hp, Hone; subst r'.
    destruct (loop_summary writerow_text repo_root remote pre) as [r1 eff1].
    destruct (loop_summary writerow_text repo_root remote (pre ++ t :: post))
      as [r2 eff2].
    simpl in *. subst r1 r2. repeat split.
    + rewrite !fetched_app, Hone, IHfetched. simpl. by rewrite app_nil_r.
    + intros w. rewrite <- !apply_and_then. by rewrite IHapply.
Qed.

(** C8: when the metadata fetch or the row fetch of a listed table fails
    (the exports before it having gone well), [main] ends with that very
    exception, in the very world in which [export_table] raised it:
    nothing is done afterwards.  No table after the failing one is
    fetched, the file being written keeps the header and the rows written
    before the failure, and no file is removed. *)
Theorem failure_aborts_run (remote : Remote) (pre post : list TableListItem)
    (t : TableListItem) (e : exn) (w : World) :
  connect remote PROJECT_ID = Ok tt ->
  list_tables remote (mkDatasetReference PROJECT_ID DATASET_ID) = Ok (pre ++ t :: post) ->
  Forall (exports_well remote) pre ->
  export_fails remote t e ->
  fst (main remote w) = Raise e
  /\ (exists w_t,
        export_table remote (reference t) w_t = (Raise e, snd (main remote w)))
  /\ (exists evs,
        trace (snd (main remote w)) = trace w ++ evs
        /\ fetched evs = flat_map (export_fetches remote) (pre ++ [t]))
  /\ (forall table,
        get_table remote (reference t) = Ok table ->
        let names := map name (schema table) in
        files (fs (snd (main remote w)))
          !! (repo_root ++ ["exports"; DATASET_ID]
              ++ [table_id (table_reference table) +:+ ".csv"])
        = Some (writerow_text (map VStr names)
                +:+ csv_text (map (fun row : Row =>
                                     map (fun n => default VNone (row !! n)) names)
                                  (yielded (row_source remote table)))))
  /\ (forall q, is_Some (files (fs w) !! q) ->
                is_Some (files (fs (snd (main remote w))) !! q)).
Proof.
  intros Hconn Hlist Hpre Hfail.
  destruct (loop_summary_stops remote pre post t e Hpre Hfail)
    as (Hres_pre & Hfetched & Hres & Happly).
  pose proof (export_fails_summary remote t e Hfail) as Hraise.
  pose proof (export_summary_log remote t) as [_ Hone].
  assert (Hmain : main_summary writerow_text repo_root remote
            = (fst (loop_summary writerow_text repo_root remote (pre ++ t :: post)),
               and_then
                 (mkEffect ∅ ∅
                    [EClient PROJECT_ID;
                     EListTables (mkDatasetReference PROJECT_ID DATASET_ID);
                     EPrint ("Found " +:+ pretty (length (pre ++ t :: post))
                             +:+ " tables in " +:+ PROJECT_ID +:+ "."
                             +:+ DATASET_ID +:+ ".")])
                 (snd (loop_summary writerow_text repo_root remote (pre ++ t :: post))))).
  { unfold main_summary. rewrite Hconn, Hlist.
    destruct (pre ++ t :: post) as [| t0 l0] eqn:Hl.
    - by destruct pre.
    - by destruct (loop_summary writerow_text repo_root remote (t0 :: l0)). }
  rewrite main_run, Hmain. cbn [fst snd]. rewrite <- apply_and_then, Happly.
  set (w_t := apply (snd (loop_summary writerow_text repo_root remote pre))
                (apply (mkEffect ∅ ∅ _) w)).
  split; [exact Hres |]. split; [| split; [| split]].
  - exists w_t. by rewrite export_table_run, Hraise.
  - subst w_t. rewrite !apply_log. unfold apply. cbn [fs trace].
    eexists. split; [by rewrite <- !app_assoc |].
    rewrite !fetched_app, Hfetched, Hone, flat_map_app. simpl.
    by rewrite app_nil_r.
  - intros table Hget.
    assert (Hfit : file_name_fits table = true).
    { destruct Hfail as [Hraised | (table0 & Hget0 & Hfit0 & _)]; congruence. }
    destruct (export_table_fetched remote (reference t) table w_t Hget Hfit)
      as (_ & Hfiles & _).
    rewrite export_table_run in Hfiles. cbn [snd] in Hfiles.
    rewrite Hfiles, <- (csv_path_eq table), lookup_insert_eq. done.
  - intros q Hq. subst w_t. rewrite !apply_log. unfold apply. cbn [fs files].
    rewrite !lookup_union. destruct Hq as [x Hx]. rewrite Hx.
    destruct (left_files _ !! q), (left_files _ !! q); by eexists.
Qed.

(** *** Every listed table, end to end *)

Lemma csv_path_inj (table table' : Table) :
  csv_path repo_root table = csv_path repo_root table' ->
  table_id (table_reference table) = table_id (table_reference table').
Proof.
  unfold csv_path, joinpath. intros H. apply app_inj_tail in H as [_ H].
  by apply StringFacts.append_inj_r in H.
Qed.

(** The files a loop leaves are files of its tables. *)
Lemma loop_files_from_tables (remote : Remote) (tables : list TableListItem) (q : Path) :
  is_Some (left_files (snd (loop_summary writerow_text repo_root remote tables)) !! q) ->
  exists t table,
    t ∈ tables /\ get_table remote (reference t) = Ok table
    /\ q = csv_path repo_root table.
Proof.
  induction tables as [| t rest IH]; simpl.
  - rewrite lookup_empty. by intros [x Hx].
  - unfold export_summary.
    destruct (get_table remote (reference t)) as [table | e] eqn:Hget.
    + destruct (file_name_fits table);
        [| cbn [snd left_files]; rewrite lookup_empty; by intros [x Hx]].
      destruct (iter_error (row_source remote table)).
      * cbn [snd left_files]. intros [x Hx].
        apply lookup_singleton_Some in Hx as [<- _].
        exists t, table. split; [left | done].
      * destruct (loop_summary writerow_text repo_root remote rest) as [r eff_rest].
        cbn [snd left_files and_then] in *. intros [x Hx].
        apply lookup_union_Some_raw in Hx as [Hx | [_ Hx]].
        -- destruct IH as (t' & table' & Hin & Hget' & ->); [by eexists |].
           exists t', table'. split; [by right | done].
        -- rewrite (left_id_L ∅ (∪)) in Hx.
           apply lookup_singleton_Some in Hx as [<- _].
           exists t, table. split; [left | done].
    + cbn [snd left_files]. rewrite lookup_empty. by intros [x Hx].
Qed.

Lemma loop_files_lookup (remote : Remote) (tables : list TableListItem) :
  Forall (exports_well remote) tables ->
  NoDup (map (fetched_table_id remote) tables) ->
  fst (loop_summary writerow_text repo_root remote tables) = Ok tt
  /\ forall t table,
       t ∈ tables -> get_table remote (reference t) = Ok table ->
       left_files (snd (loop_summary writerow_text repo_root remote tables))
         !! csv_path repo_root table
       = Some (csv_text (map VStr (column_names table)
                         :: map (row_cells (column_names table))
                              (yielded (row_source remote table)))).
Proof.
  induction 1 as [| t rest Hwell Hrest IH]; intros Hdup.
  - split; [done |]. intros t table Hin. by apply elem_of_nil in Hin.
  - apply NoDup_cons in Hdup as [Hfresh Hdup]. destruct (IH Hdup) as [IHres IHfiles].
    pose proof (loop_files_from_tables remote rest) as Hfrom.
    destruct Hwell as (table0 & Hget0 & Hfit0 & Hend0). simpl.
    unfold export_summary. rewrite Hget0, Hfit0, Hend0.
    destruct (loop_summary writerow_text repo_root remote rest) as [r eff_rest].
    cbn [fst snd left_files and_then] in *. split; [exact IHres |].
    intros t' table Hin Hget. apply elem_of_cons in Hin as [-> | Hin].
    + assert (table = table0) as -> by congruence.
      destruct (left_files eff_rest !! csv_path repo_root table0) as [x |] eqn:Hx.
      * destruct (Hfrom (csv_path repo_root table0)) as (t1 & table1 & Hin1 & Hget1 & Hp);
          [by eexists |].
        exfalso. apply Hfresh. apply list_elem_of_fmap. exists t1. split; [| exact Hin1].
        unfold fetched_table_id. rewrite Hget0, Hget1. by apply csv_path_inj.
      * apply lookup_union_Some_raw. right. split; [done |].
        rewrite (left_id_L ∅ (∪)). apply lookup_singleton_eq.
    + apply lookup_union_Some_raw. left. by apply (IHfiles t').
Qed.

(** X11: when every listed table exports well and no two of them are
    exported under the same name, [main] ends well and leaves, for every
    listed table, its file: the header and one record per row. *)
Theorem main_exports_every_table (remote : Remote) (tables : list TableListItem)
    (w : World) :
  connect remote PROJECT_ID = Ok tt ->
  list_tables remote (mkDatasetReference PROJECT_ID DATASET_ID) = Ok tables ->
  tables <> [] ->
  Forall (exports_well remote) tables ->
  NoDup (map (fetched_table_id remote) tables) ->
  fst (main remote w) = Ok tt
  /\ forall t table,
       t ∈ tables -> get_table remote (reference t) = Ok table ->
       let names := map name (schema table) in
       files (fs (snd (main remote w)))
         !! (repo_root ++ ["exports"; DATASET_ID]
             ++ [table_id (table_reference table) +:+ ".csv"])
       = Some (writerow_text (map VStr names)
               +:+ csv_text (map (fun row : Row =>
                                    map (fun n => default VNone (row !! n)) names)
                                 (yielded (row_source remote table)))).
Proof.
  intros Hconn Hlist Hne Hwell Hdup.
  destruct (loop_files_lookup remote tables Hwell Hdup) as [Hres Hfiles].
  rewrite main_run. unfold main_summary. rewrite Hconn, Hlist.
  destruct tables as [| t0 rest]; [done |].
  destruct (loop_summary writerow_text repo_root remote (t0 :: rest)) as [r eff].
  cbn [fst snd] in *. split; [exact Hres |].
  intros t table Hin Hget. cbv zeta. rewrite <- csv_path_eq.
  unfold apply. cbn [fs files left_files and_then].
  apply lookup_union_Some_raw. left.
  rewrite (right_id_L ∅ (∪)). exact (Hfiles t table Hin Hget).
Qed.

(** *** What an export touches, and in which order *)

Lemma take_in_ancestors (p : Path) (k : nat) : take k p ∈ ancestors_and_self p.
Proof.
  revert k. induction p as [| c p IH]; intros [| k]; simpl; try by left.
  right. apply list_elem_of_fmap. exists (take k p). split; [done | apply IH].
Qed.

(** X1: an export whose metadata fetch succeeded changes one file at most,
    the table's own; every other file is as it was, the directories that
    were there are still there, and the output directory exists afterwards
    together with each of its ancestors.  The table's file exists
    afterwards when its name fits the file system's limit; when the name
    is too long no file is changed at all. *)
Theorem export_table_touches_one_file (client : Remote) (table_ref : TableReference)
    (table : Table) (w : World) :
  get_table client table_ref = Ok table ->
  let p := repo_root ++ ["exports"; DATASET_ID]
           ++ [table_id (table_reference table) +:+ ".csv"] in
  let w' := snd (export_table client table_ref w) in
  (forall q, q <> p -> files (fs w') !! q = files (fs w) !! q)
  /\ (String.length (table_id (table_reference table) +:+ ".csv") <= NAME_MAX ->
      is_Some (files (fs w') !! p))
  /\ (NAME_MAX < String.length (table_id (table_reference table) +:+ ".csv") ->
      files (fs w') = files (fs w))
  /\ (forall d, d ∈ dirs (fs w) -> d ∈ dirs (fs w'))
  /\ (forall k, take k (repo_root ++ ["exports"; DATASET_ID]) ∈ dirs (fs w')).
Proof.
  intros Hget p w'.
  assert (Hdirs : dirs (fs w')
                  = dirs (fs w) ∪ list_to_set (ancestors_and_self OUTPUT_DIR)).
  { subst w'. rewrite export_table_run. unfold export_summary. rewrite Hget.
    by destruct (file_name_fits table). }
  assert (Hfiles : if file_name_fits table
                   then exists text, files (fs w') = <[p := text]> (files (fs w))
                   else files (fs w') = files (fs w)).
  { subst w' p. rewrite export_table_run. unfold export_summary. rewrite Hget.
    rewrite <- (csv_path_eq table).
    destruct (file_name_fits table); cbn [snd]; unfold apply; cbn [fs files left_files].
    - eexists. by rewrite insert_union_singleton_l.
    - by rewrite (left_id_L ∅ (∪)). }
  fold w'. rewrite Hdirs. split; [| split; [| split; [| split]]].
  - intros q Hq. destruct (file_name_fits table).
    + destruct Hfiles as [text ->]. by rewrite lookup_insert_ne.
    + by rewrite Hfiles.
  - intros Hfit. apply file_name_fits_le in Hfit. rewrite Hfit in Hfiles.
    destruct Hfiles as [text ->]. rewrite lookup_insert_eq. by eexists.
  - intros Hlong. destruct (file_name_fits table) eqn:Hfit; [| exact Hfiles].
    apply Nat.leb_le in Hfit. unfold csv_name in Hfit. lia.
  - intros d Hd. apply elem_of_union. by left.
  - intros k. apply elem_of_union. right. apply elem_of_list_to_set.
    replace (repo_root ++ ["exports"; DATASET_ID]) with OUTPUT_DIR
      by (unfold Exporter.OUTPUT_DIR, joinpath; by rewrite <- app_assoc).
    apply take_in_ancestors.
Qed.

(** X2: an export whose metadata fetch succeeded and whose file name fits
    the file system's limit goes through the same steps whatever the row
    source does: fetch, make the directory, open the file, write the
    header, ask for the rows (with one more fetch of the table when it came
    without columns), then one write to that file for each row the source
    yielded, and at the very end the file is closed, also when the row
    source raises.  When the name is
    too long the run stops at the refused open: nothing is written and
    there is nothing to close. *)
Theorem export_table_closes_file (client : Remote) (table_ref : TableReference)
    (table : Table) (w : World) :
  get_table client table_ref = Ok table ->
  let p := repo_root ++ ["exports"; DATASET_ID]
           ++ [table_id (table_reference table) +:+ ".csv"] in
  let start := [EGetTable table_ref; EMkdir (repo_root ++ ["exports"; DATASET_ID]);
                EOpen p] in
  let names := map name (schema table) in
  let data := map (fun row : Row => map (fun n => default VNone (row !! n)) names)
                  (yielded (row_source client table)) in
  (String.length (table_id (table_reference table) +:+ ".csv") <= NAME_MAX ->
   trace (snd (export_table client table_ref w))
   = trace w ++ start
     ++ [EWriteRow p (map VStr names)]
     ++ EListRows (table_reference table)
        :: match schema table with
           | [] => [EGetTable (table_reference table)]
           | _ :: _ => []
           end
     ++ map (EWriteRow p) data ++ [EClose p])
  /\ (NAME_MAX < String.length (table_id (table_reference table) +:+ ".csv") ->
      fst (export_table client table_ref w) = Raise (OSError "File name too long")
      /\ trace (snd (export_table client table_ref w)) = trace w ++ start).
Proof.
  intros Hget p start names data.
  assert (Hout : Exporter.OUTPUT_DIR repo_root = repo_root ++ ["exports"; DATASET_ID])
    by (unfold Exporter.OUTPUT_DIR, joinpath; by rewrite <- app_assoc).
  split.
  - intros Hfit. apply file_name_fits_le in Hfit.
    rewrite export_table_run. unfold export_summary. rewrite Hget, Hfit.
    cbn [snd]. unfold apply. cbn [trace logged].
    rewrite (csv_path_eq table), Hout. fold p. done.
  - intros Hlong.
    rewrite (export_table_name_too_long client table_ref table w Hget Hlong).
    cbn [fst snd trace]. by rewrite (csv_path_eq table), Hout.
Qed.

(** X3: when the client cannot be built, when the listing fails, or when
    the metadata fetch of the first listed table fails, [main] ends with
    that error and the file system is exactly as it was: not even the
    output directory has been made. *)
Theorem main_early_failure_touches_nothing (remote : Remote) (e : exn) (w : World) :
  connect remote PROJECT_ID = Raise e
  \/ (connect remote PROJECT_ID = Ok tt
      /\ list_tables remote (mkDatasetReference PROJECT_ID DATASET_ID) = Raise e)
  \/ (connect remote PROJECT_ID = Ok tt
      /\ exists t rest,
           list_tables remote (mkDatasetReference PROJECT_ID DATASET_ID) = Ok (t :: rest)
           /\ get_table remote (reference t) = Raise e) ->
  fst (main remote w) = Raise e /\ fs (snd (main remote w)) = fs w.
Proof.
  intros Hfail. rewrite main_run. unfold main_summary.
  destruct Hfail as [Hconn | [[Hconn Hlist] | (Hconn & t & rest & Hlist & Hget)]].
  - rewrite Hconn. cbn [fst snd]. by rewrite apply_log.
  - rewrite Hconn, Hlist. cbn [fst snd]. by rewrite apply_log.
  - rewrite Hconn, Hlist. simpl loop_summary. unfold export_summary. rewrite Hget.
    cbn [fst snd]. split; [done |].
    rewrite <- apply_and_then, !apply_log. done.
Qed.

(** *** What a run prints, fetches and touches *)





(** X6: whatever the remote service does, [main] removes nothing: a file
    or a directory that was there is still there.  And a file whose text
    differs after the run is the file of a listed table whose metadata was
    fetched: it sits in the output directory under the name of the table
    with [.csv] appended. *)
Theorem main_writes_only_table_files (remote : Remote) (w : World) :
  (forall d, d ∈ dirs (fs w) -> d ∈ dirs (fs (snd (main remote w))))
  /\ (forall q, is_Some (files (fs w) !! q) ->
                is_Some (files (fs (snd (main remote w))) !! q))
  /\ (forall q,
        files (fs (snd (main remote w))) !! q <> files (fs w) !! q ->
        exists tables t table,
          list_tables remote (mkDatasetReference PROJECT_ID DATASET_ID) = Ok tables
          /\ t ∈ tables
          /\ get_table remote (reference t) = Ok table
          /\ q = repo_root ++ ["exports"; DATASET_ID]
                 ++ [table_id (table_reference table) +:+ ".csv"]).
Proof.
  rewrite main_run. unfold apply. cbn [snd fs dirs files].
  split; [| split].
  - intros d Hd. apply elem_of_union. by left.
  - intros q [x Hx]. rewrite lookup_union, Hx.
    destruct (left_files _ !! q); by eexists.
  - intros q Hq.
    destruct (left_files (snd (main_summary writerow_text repo_root remote)) !! q)
      as [x |] eqn:Hx.
    2: { exfalso. apply Hq. rewrite lookup_union, Hx. by destruct (files (fs w) !! q). }
    clear Hq. unfold main_summary in Hx.
    destruct (connect remote PROJECT_ID) as [[] | e];
      [| cbn [snd left_files] in Hx; by rewrite lookup_empty in Hx].
    destruct (list_tables remote _) as [tables | e] eqn:Hlist;
      [| cbn [snd left_files] in Hx; by rewrite lookup_empty in Hx].
    destruct tables as [| t0 l0];
      [cbn [snd left_files] in Hx; by rewrite lookup_empty in Hx |].
    destruct (loop_files_from_tables remote (t0 :: l0) q) as (t & table & Hin & Hget & ->).
    { destruct (loop_summary writerow_text repo_root remote (t0 :: l0)) as [r eff].
      cbn [snd left_files and_then] in *. rewrite (right_id_L ∅ (∪)) in Hx. by eexists. }
    exists (t0 :: l0), t, table. by rewrite <- csv_path_eq.
Qed.

End Facts.

(** *** Worked examples *)

(** The bytes of [orders.csv] after a run on the example dataset. *)
Example demo_orders_file :
  files (fs (snd (Exporter.main excel_writerow demo_root demo_remote demo_world)))
    !! orders_csv
  = Some ("id,name" +:+ crlf
          +:+ "1," +:+ dquote +:+ "a,b" +:+ dquote +:+ crlf
          +:+ "2," +:+ crlf).
Proof. vm_compute. reflexivity. Qed.

Example demo_customers_file :
  files (fs (snd (Exporter.main excel_writerow demo_root demo_remote demo_world)))
    !! customers_csv
  = Some ("email" +:+ crlf).
Proof. vm_compute. reflexivity. Qed.

Lemma orders_name_fits :
  String.length (table_id (table_reference orders) +:+ ".csv") <= NAME_MAX.
Proof. apply Nat.leb_le. reflexivity. Defined.

Lemma customers_name_fits :
  String.length (table_id (table_reference customers) +:+ ".csv") <= NAME_MAX.
Proof. apply Nat.leb_le. reflexivity. Defined.

Lemma long_name_too_long :
  NAME_MAX < String.length (long_id +:+ ".csv").
Proof. apply Nat.ltb_lt. reflexivity. Defined.

Lemma export_writes_every_row_witness :
  get_table demo_remote orders_ref = Ok orders
  /\ String.length ("orders" +:+ ".csv") <= NAME_MAX
  /\ files (fs (snd (Exporter.export_table excel_writerow demo_root demo_remote
                       orders_ref demo_world)))
       !! orders_csv
     = Some (csv_text excel_writerow
               [[VStr "id"; VStr "name"]; [VObj "1"; VStr "a,b"]; [VObj "2"; VNone]]).
Proof.
  split; [reflexivity |]. split; [exact orders_name_fits |].
  exact (proj1 (export_writes_every_row excel_writerow demo_root demo_remote orders_ref
                  orders demo_world eq_refl orders_name_fits)).
Defined.

Lemma header_is_schema_in_order_witness :
  get_table flaky_remote orders_ref = Ok orders
  /\ String.length ("orders" +:+ ".csv") <= NAME_MAX
  /\ exists rest,
       files (fs (snd (Exporter.export_table excel_writerow demo_root flaky_remote
                         orders_ref demo_world)))
         !! orders_csv
       = Some (excel_writerow [VStr "id"; VStr "name"] +:+ rest).
Proof.
  split; [reflexivity |]. split; [exact orders_name_fits |].
  exact (proj1 (header_is_schema_in_order excel_writerow demo_root flaky_remote orders_ref
                  orders demo_world eq_refl orders_name_fits)).
Defined.

(** A table whose name, with [.csv] appended, is one byte longer than the
    file system allows: the export of this table, which has no rows, does
    not succeed.  It raises the error of the refused open, returns no
    path, and leaves no file. *)
Lemma long_name_export_fails :
  get_table odd_remote long_ref
  = Ok (mkTable long_ref [mkSchemaField "id" "INTEGER"])
  /\ String.length long_id = 252
  /\ row_source odd_remote (mkTable long_ref [mkSchemaField "id" "INTEGER"])
     = StopIteration
  /\ fst (Exporter.export_table excel_writerow demo_root odd_remote long_ref demo_world)
     = Raise (OSError "File name too long")
  /\ (forall p,
        fst (Exporter.export_table excel_writerow demo_root odd_remote long_ref
               demo_world)
        <> Ok p)
  /\ files (fs (snd (Exporter.export_table excel_writerow demo_root odd_remote long_ref
                       demo_world)))
     = files (fs demo_world).
Proof.
  split; [reflexivity |]. split; [reflexivity |]. split; [reflexivity |].
  assert (Hrun : fst (Exporter.export_table excel_writerow demo_root odd_remote long_ref
                        demo_world)
                 = Raise (OSError "File name too long")) by (vm_compute; reflexivity).
  split; [exact Hrun |]. split.
  - intros p Hp. rewrite Hrun in Hp. discriminate Hp.
  - vm_compute. reflexivity.
Qed.

Lemma empty_table_header_only_witness :
  get_table demo_remote customers_ref = Ok customers
  /\ String.length ("customers" +:+ ".csv") <= NAME_MAX
  /\ row_source demo_remote customers = StopIteration
  /\ fst (Exporter.export_table excel_writerow demo_root demo_remote customers_ref
            demo_world)
     = Ok customers_csv
  /\ files (fs (snd (Exporter.export_table excel_writerow demo_root demo_remote
                       customers_ref demo_world)))
       !! customers_csv
     = Some (excel_writerow [VStr "email"]).
Proof.
  split; [reflexivity |]. split; [exact customers_name_fits |]. split; [reflexivity |].
  destruct (empty_table_header_only excel_writerow demo_root demo_remote customers_ref
              customers demo_world eq_refl customers_name_fits eq_refl)
    as (Hres & Hfile & _).
  split; [exact Hres | exact Hfile].
Defined.

Lemma every_record_has_header_width_witness :
  get_table demo_remote orders_ref = Ok orders
  /\ String.length ("orders" +:+ ".csv") <= NAME_MAX
  /\ exists evs,
       trace (snd (Exporter.export_table excel_writerow demo_root demo_remote
                     orders_ref demo_world))
       = trace demo_world ++ evs
       /\ Forall (fun cells => length cells = 2) (written_rows orders_csv evs).
Proof.
  split; [reflexivity |]. split; [exact orders_name_fits |].
  destruct (every_record_has_header_width excel_writerow demo_root demo_remote orders_ref
              orders demo_world eq_refl orders_name_fits) as (evs & Htr & _ & Hwidth & _).
  exists evs. split; [exact Htr | exact Hwidth].
Defined.

Lemma no_tables_halts_before_any_write_witness :
  connect empty_remote PROJECT_ID = Ok tt
  /\ list_tables empty_remote (mkDatasetReference PROJECT_ID DATASET_ID) = Ok []
  /\ fst (Exporter.main excel_writerow demo_root empty_remote demo_world)
     = Raise (SystemExit "No tables found in saras-bigquery.dbt_training_marts")
  /\ fs (snd (Exporter.main excel_writerow demo_root empty_remote demo_world))
     = fs demo_world.
Proof.
  split; [reflexivity |]. split; [reflexivity |].
  destruct (no_tables_halts_before_any_write excel_writerow demo_root empty_remote
              demo_world eq_refl eq_refl) as (Hres & _ & _ & Hfs & _).
  split; [exact Hres | exact Hfs].
Defined.

Lemma demo_tables_export_well :
  Forall (exports_well demo_remote)
    [mkTableListItem orders_ref; mkTableListItem customers_ref].
Proof.
  repeat constructor; [exists orders | exists customers]; repeat split; reflexivity.
Qed.

Lemma demo_tables_distinct :
  NoDup (map (fetched_table_id demo_remote)
           [mkTableListItem orders_ref; mkTableListItem customers_ref]).
Proof.
  change (NoDup ["orders"; "customers"]).
  apply NoDup_cons. split; [| apply NoDup_singleton].
  intros Hin. apply list_elem_of_singleton in Hin. discriminate Hin.
Qed.

Lemma main_exports_every_table_witness :
  fst (Exporter.main excel_writerow demo_root demo_remote demo_world) = Ok tt
  /\ files (fs (snd (Exporter.main excel_writerow demo_root demo_remote demo_world)))
       !! customers_csv
     = Some (excel_writerow [VStr "email"] +:+ "").
Proof.
  destruct (main_exports_every_table excel_writerow demo_root demo_remote
              [mkTableListItem orders_ref; mkTableListItem customers_ref] demo_world
              eq_refl eq_refl ltac:(discriminate)
              demo_tables_export_well demo_tables_distinct) as [Hres Hfiles].
  split; [exact Hres |].
  apply (Hfiles (mkTableListItem customers_ref) customers); [| reflexivity].
  right. left.
Defined.

Lemma orders_export_fails :
  export_fails flaky_remote (mkTableListItem orders_ref)
    (ApiError "503 Service Unavailable").
Proof. right. exists orders. repeat split; reflexivity. Defined.

Lemma customers_export_well :
  Forall (exports_well flaky_remote) [mkTableListItem customers_ref].
Proof. repeat constructor. exists customers. repeat split; reflexivity. Defined.

Lemma failure_aborts_run_witness :
  fst (Exporter.main excel_writerow demo_root flaky_remote demo_world)
  = Raise (ApiError "503 Service Unavailable")
  /\ files (fs (snd (Exporter.main excel_writerow demo_root flaky_remote demo_world)))
       !! orders_csv
     = Some (csv_text excel_writerow [[VStr "id"; VStr "name"]; [VObj "1"; VStr "a,b"]]).
Proof.
  destruct (failure_aborts_run excel_writerow demo_root flaky_remote
              [mkTableListItem customers_ref] [mkTableListItem customers_ref]
              (mkTableListItem orders_ref) (ApiError "503 Service Unavailable")
              demo_world eq_refl eq_refl customers_export_well orders_export_fails)
    as (Hres & _ & _ & Hpartial & _).
  split; [exact Hres | exact (Hpartial orders eq_refl)].
Defined.

Lemma export_table_touches_one_file_witness :
  get_table demo_remote orders_ref = Ok orders
  /\ files (fs (snd (Exporter.export_table excel_writerow demo_root demo_remote
                       orders_ref demo_world)))
       !! customers_csv
     = files (fs demo_world) !! customers_csv
  /\ is_Some (files (fs (snd (Exporter.export_table excel_writerow demo_root demo_remote
                                orders_ref demo_world)))
                !! orders_csv)
  /\ ["srv"; "dbt-training"; "exports"]
     ∈ dirs (fs (snd (Exporter.export_table excel_writerow demo_root demo_remote
                        orders_ref demo_world))).
Proof.
  split; [reflexivity |].
  destruct (export_table_touches_one_file excel_writerow demo_root demo_remote orders_ref
              orders demo_world eq_refl) as (Hother & Hthere & _ & _ & Hdirs).
  split; [apply Hother; discriminate |].
  split; [exact (Hthere orders_name_fits) | exact (Hdirs 3)].
Defined.

Lemma export_table_closes_file_witness :
  get_table odd_remote bare_ref = Ok (mkTable bare_ref [])
  /\ String.length ("bare" +:+ ".csv") <= NAME_MAX
  /\ trace (snd (Exporter.export_table excel_writerow demo_root odd_remote bare_ref
                   demo_world))
     = trace demo_world
       ++ [EGetTable bare_ref; EMkdir ["srv"; "dbt-training"; "exports"; DATASET_ID];
           EOpen ["srv"; "dbt-training"; "exports"; DATASET_ID; "bare.csv"];
           EWriteRow ["srv"; "dbt-training"; "exports"; DATASET_ID; "bare.csv"] [];
           EListRows bare_ref; EGetTable bare_ref;
           EClose ["srv"; "dbt-training"; "exports"; DATASET_ID; "bare.csv"]].
Proof.
  split; [reflexivity |].
  assert (Hfit : String.length ("bare" +:+ ".csv") <= NAME_MAX)
    by (apply Nat.leb_le; reflexivity).
  split; [exact Hfit |].
  exact (proj1 (export_table_closes_file excel_writerow demo_root odd_remote bare_ref
                  (mkTable bare_ref []) demo_world eq_refl) Hfit).
Defined.

Lemma main_early_failure_touches_nothing_witness :
  list_tables forbidden_remote (mkDatasetReference PROJECT_ID DATASET_ID)
  = Raise (ApiError "403 Forbidden")
  /\ fst (Exporter.main excel_writerow demo_root forbidden_remote demo_world)
     = Raise (ApiError "403 Forbidden")
  /\ fs (snd (Exporter.main excel_writerow demo_root forbidden_remote demo_world))
     = fs demo_world.
Proof.
  split; [reflexivity |].
  exact (main_early_failure_touches_nothing excel_writerow demo_root forbidden_remote
           (ApiError "403 Forbidden") demo_world
           (or_intror (or_introl (conj eq_refl eq_refl)))).
Defined.





End ExporterSpec.

(** * Properties of the loader *)

Module LoaderSpec.
Import Py Loader.
Local Open Scope py_scope.
Local Open Scope list_scope.

Section Facts.
Variable faults : nat -> option exn.
Variable repo_root : Path.

Local Abbreviation FILE_PATH := (Loader.FILE_PATH repo_root).
Local Abbreviation request := (Loader.request faults).
Local Abbreviation get_dataset := (Loader.get_dataset faults).
Local Abbreviation create_dataset := (Loader.create_dataset faults).
Local Abbreviation ensure_dataset := (Loader.ensure_dataset faults).
Local Abbreviation load_file := (Loader.load_file faults repo_root).
Local Abbreviation script := (Loader.script faults repo_root).

(** *** Logging discipline *)

Lemma logs_only_ret {A : Type} (P : event -> bool) (a : A) : logs_only P (ret a).
Proof. intros w. split; [done |]. exists []. by rewrite app_nil_r. Qed.

Lemma logs_only_raise {A : Type} (P : event -> bool) (e : exn) :
  logs_only P (raise e : M World A).
Proof. intros w. split; [done |]. exists []. by rewrite app_nil_r. Qed.

Lemma logs_only_log (P : event -> bool) (ev : event) :
  P ev = true -> logs_only P (log ev).
Proof. intros HP w. split; [done |]. exists [ev]. simpl. by rewrite HP. Qed.

Lemma logs_only_request {A : Type} (P : event -> bool) (ev : event)
    (serve : Service -> outcome A * Service) :
  P ev = true -> logs_only P (request ev serve).
Proof.
  intros HP w. unfold Loader.request.
  destruct (faults (requests w)); [| destruct (serve (service w))];
    (split; [done |]); exists [ev]; simpl; by rewrite HP.
Qed.

Lemma logs_only_bind {A B : Type} (P : event -> bool) (c : M World A)
    (k : A -> M World B) :
  logs_only P c -> (forall a, logs_only P (k a)) -> logs_only P (bind c k).
Proof.
  intros Hc Hk w. unfold bind. destruct (Hc w) as (Hl & evs & Htr & HP).
  destruct (c w) as [[a | e] w1]; simpl in *; [| by eauto].
  destruct (Hk a w1) as (Hl' & evs' & Htr' & HP').
  split; [congruence |]. exists (evs ++ evs').
  by rewrite Htr', Htr, app_assoc, forallb_app, HP, HP'.
Qed.

Lemma logs_only_try {A : Type} (P : event -> bool) (body handler : M World A) :
  logs_only P body -> logs_only P handler ->
  logs_only P (try_except_Exception body handler).
Proof.
  intros Hb Hh w. unfold try_except_Exception.
  destruct (Hb w) as (Hl & evs & Htr & HP).
  destruct (body w) as [[a | e] w1]; simpl in *; [by eauto |].
  destruct (is_Exception e); simpl; [| by eauto].
  destruct (Hh w1) as (Hl' & evs' & Htr' & HP').
  split; [congruence |]. exists (evs ++ evs').
  by rewrite Htr', Htr, app_assoc, forallb_app, HP, HP'.
Qed.

Lemma logs_only_finally {A : Type} (P : event -> bool) (body : M World A)
    (cleanup : M World unit) :
  logs_only P body -> logs_only P cleanup -> logs_only P (finally body cleanup).
Proof.
  intros Hb Hc w. unfold finally.
  destruct (Hb w) as (Hl & evs & Htr & HP). destruct (body w) as [r w1]; simpl in *.
  destruct (Hc w1) as (Hl' & evs' & Htr' & HP').
  assert (local_files (snd (cleanup w1)) = local_files w
          /\ exists evs0, trace (snd (cleanup w1)) = trace w ++ evs0
                          /\ forallb P evs0 = true) as Hgoal.
  { split; [congruence |]. exists (evs ++ evs').
    by rewrite Htr', Htr, app_assoc, forallb_app, HP, HP'. }
  by destruct (cleanup w1) as [[[] | e] w2].
Qed.

Lemma logs_only_with_open_rb {A : Type} (P : event -> bool) (p : Path)
    (body : FileObj -> M World A) :
  P (EOpen p) = true -> P (EClose p) = true ->
  (forall f, logs_only P (body f)) -> logs_only P (with_open_rb p body).
Proof.
  intros Ho Hc Hb. unfold with_open_rb.
  apply logs_only_bind; [by apply logs_only_log |]. intros _ w.
  destruct (local_files w !! p) as [lines |].
  - apply (logs_only_finally P); [apply Hb | by apply logs_only_log].
  - split; [done |]. exists []. by rewrite app_nil_r.
Qed.

Lemma logs_only_get_dataset (P : event -> bool) (ref : DatasetReference) :
  P (EGetDataset ref) = true -> logs_only P (get_dataset ref).
Proof. intros HP. by apply logs_only_request. Qed.

Lemma logs_only_create_dataset (P : event -> bool) (ds : Dataset) (exists_ok : bool) :
  P (ECreateDataset ds) = true -> P (EGetDataset (dataset_reference ds)) = true ->
  logs_only P (create_dataset ds exists_ok).
Proof.
  intros Hc Hg w. unfold Loader.create_dataset.
  pose proof (logs_only_request P (ECreateDataset ds)
    (fun sv =>
       match datasets sv !! dataset_reference ds with
       | Some _ => (Raise Conflict, sv)
       | None =>
           (Ok ds, mkService (<[dataset_reference ds := ds]> (datasets sv)) (tables sv))
       end) Hc w) as (Hl & evs & Htr & HP).
  destruct (request _ _ w) as [[a | e] w1]; simpl in *; [by eauto |].
  destruct e; try (by eauto).
  destruct exists_ok; [| by eauto].
  destruct (logs_only_get_dataset P _ Hg w1) as (Hl' & evs' & Htr' & HP').
  split; [congruence |]. exists (evs ++ evs').
  by rewrite Htr', Htr, app_assoc, forallb_app, HP, HP'.
Qed.

Lemma logs_only_ensure_dataset (P : event -> bool) (ref : DatasetReference) :
  (forall ev, is_load ev = false -> P ev = true) ->
  logs_only P (ensure_dataset ref).
Proof.
  intros HP. unfold Loader.ensure_dataset. apply logs_only_try.
  - apply logs_only_bind; [by apply logs_only_get_dataset, HP |]. intros ds.
    apply logs_only_bind; [by apply logs_only_log, HP |]. intros _.
    apply logs_only_ret.
  - apply logs_only_bind; [by apply logs_only_log, HP |]. intros _.
    apply logs_only_bind; [by apply logs_only_create_dataset; apply HP |]. intros _.
    apply logs_only_bind; [by apply logs_only_log, HP |]. intros _.
    apply logs_only_ret.
Qed.

Lemma logs_only_load_file (P : event -> bool) :
  (forall ev, is_create ev = false -> P ev = true) ->
  logs_only P load_file.
Proof.
  intros HP. unfold Loader.load_file.
  apply logs_only_bind; [by apply logs_only_log, HP |]. intros _.
  apply logs_only_bind.
  - apply logs_only_with_open_rb; [by apply HP | by apply HP |]. intros f.
    apply logs_only_bind; [by apply logs_only_request, HP |]. intros job.
    by apply logs_only_request, HP.
  - intros job. by apply logs_only_log, HP.
Qed.

(** *** Datasets that exist are left alone *)

Lemma keeps_ret {A : Type} (a : A) : keeps_datasets (ret a : M World A).
Proof. by intros w ref ds H. Qed.

Lemma keeps_raise {A : Type} (e : exn) : keeps_datasets (raise e : M World A).
Proof. by intros w ref ds H. Qed.

Lemma keeps_log (ev : event) : keeps_datasets (log ev).
Proof. by intros w ref ds H. Qed.

Lemma keeps_bind {A B : Type} (c : M World A) (k : A -> M World B) :
  keeps_datasets c -> (forall a, keeps_datasets (k a)) -> keeps_datasets (bind c k).
Proof.
  intros Hc Hk w ref ds H. unfold bind. specialize (Hc w ref ds H).
  destruct (c w) as [[a | e] w1]; simpl in *; [by apply Hk | done].
Qed.

Lemma keeps_try {A : Type} (body handler : M World A) :
  keeps_datasets body -> keeps_datasets handler ->
  keeps_datasets (try_except_Exception body handler).
Proof.
  intros Hb Hh w ref ds H. unfold try_except_Exception. specialize (Hb w ref ds H).
  destruct (body w) as [[a | e] w1]; simpl in *; [done |].
  destruct (is_Exception e); [by apply Hh | done].
Qed.

Lemma keeps_finally {A : Type} (body : M World A) (cleanup : M World unit) :
  keeps_datasets body -> keeps_datasets cleanup -> keeps_datasets (finally body cleanup).
Proof.
  intros Hb Hc w ref ds H. unfold finally. specialize (Hb w ref ds H).
  destruct (body w) as [r w1]; simpl in *. specialize (Hc w1 ref ds Hb).
  by destruct (cleanup w1) as [[[] | e] w2].
Qed.

Lemma keeps_request {A : Type} (ev : event) (serve : Service -> outcome A * Service) :
  (forall sv ref ds,
     datasets sv !! ref = Some ds -> datasets (snd (serve sv)) !! ref = Some ds) ->
  keeps_datasets (request ev serve).
Proof.
  intros Hs w ref ds H. unfold Loader.request.
  destruct (faults (requests w)); [done |].
  specialize (Hs (service w) ref ds H). by destruct (serve (service w)).
Qed.

Lemma keeps_get_dataset (ref : DatasetReference) : keeps_datasets (get_dataset ref).
Proof.
  apply keeps_request. intros sv ref' ds H. by destruct (datasets sv !! ref).
Qed.

Lemma keeps_create_dataset (ds : Dataset) (exists_ok : bool) :
  keeps_datasets (create_dataset ds exists_ok).
Proof.
  intros w ref ds' H. unfold Loader.create_dataset.
  pose proof (keeps_request (ECreateDataset ds)
    (fun sv =>
       match datasets sv !! dataset_reference ds with
       | Some _ => (Raise Conflict, sv)
       | None =>
           (Ok ds, mkService (<[dataset_reference ds := ds]> (datasets sv)) (tables sv))
       end)) as Hreq.
  assert (Hserve : forall sv ref0 ds0,
            datasets sv !! ref0 = Some ds0 ->
            datasets
              (snd (match datasets sv !! dataset_reference ds with
                    | Some _ => (Raise Conflict, sv)
                    | None =>
                        (Ok ds,
                         mkService (<[dataset_reference ds := ds]> (datasets sv))
                                   (tables sv))
                    end)) !! ref0 = Some ds0).
  { intros sv ref0 ds0 H0.
    destruct (datasets sv !! dataset_reference ds) eqn:Hds; cbn [snd datasets];
      [exact H0 |].
    rewrite lookup_insert_ne; [exact H0 | congruence]. }
  specialize (Hreq Hserve w ref ds' H).
  destruct (request _ _ w) as [[a | e] w1]; simpl in *; [done |].
  destruct e; try done. destruct exists_ok; [| done].
  by apply keeps_get_dataset.
Qed.

Lemma keeps_ensure_dataset (ref : DatasetReference) : keeps_datasets (ensure_dataset ref).
Proof.
  unfold Loader.ensure_dataset. apply keeps_try.
  - apply keeps_bind; [apply keeps_get_dataset |]. intros ds.
    apply keeps_bind; [apply keeps_log |]. intros _. apply keeps_ret.
  - apply keeps_bind; [apply keeps_log |]. intros _.
    apply keeps_bind; [apply keeps_create_dataset |]. intros _.
    apply keeps_bind; [apply keeps_log |]. intros _. apply keeps_ret.
Qed.

Lemma keeps_load_file : keeps_datasets load_file.
Proof.
  unfold Loader.load_file.
  apply keeps_bind; [apply keeps_log |]. intros _.
  apply keeps_bind; [| intros job; apply keeps_log].
  unfold with_open_rb. apply keeps_bind; [apply keeps_log |]. intros _ w.
  destruct (local_files w !! FILE_PATH) as [lines |]; [| done].
  apply keeps_finally; [| apply keeps_log].
  apply keeps_bind; [by apply keeps_request |]. intros job.
  apply keeps_request. intros sv ref ds H. cbv zeta.
  by destruct (loaded_rows (write_disposition (lj_config job))
                 (default [] (tables sv !! lj_destination job))
                 (fo_lines (lj_source job))).
Qed.

Lemma keeps_script : keeps_datasets script.
Proof.
  unfold Loader.script. apply keeps_bind; [by intros w ref ds H |]. intros found.
  destruct (negb found); [apply keeps_raise |].
  apply keeps_bind; [by apply keeps_request |]. intros _.
  apply keeps_bind; [apply keeps_ensure_dataset |]. intros _.
  apply keeps_load_file.
Qed.

(** *** No [Conflict] unless the service is made to raise one *)

Section NoConflict.
Hypothesis faults_no_conflict : forall n, faults n <> Some Conflict.

Lemma never_conflict_bind {A B : Type} (c : M World A) (k : A -> M World B) :
  never_conflict c -> (forall a, never_conflict (k a)) -> never_conflict (bind c k).
Proof.
  intros Hc Hk w. unfold bind. specialize (Hc w).
  destruct (c w) as [[a | e] w1]; simpl in *; [apply Hk |].
  intros [= ->]. by apply Hc.
Qed.

Lemma never_conflict_log (ev : event) : never_conflict (log ev).
Proof. by intros w. Qed.

Lemma never_conflict_request {A : Type} (ev : event)
    (serve : Service -> outcome A * Service) :
  (forall sv, fst (serve sv) <> Raise Conflict) -> never_conflict (request ev serve).
Proof.
  intros Hs w. unfold Loader.request.
  destruct (faults (requests w)) as [e |] eqn:Hf.
  - simpl. intros [= ->]. by apply (faults_no_conflict (requests w)).
  - specialize (Hs (service w)). by destruct (serve (service w)).
Qed.

Lemma never_conflict_get_dataset (ref : DatasetReference) :
  never_conflict (get_dataset ref).
Proof.
  apply never_conflict_request. intros sv. by destruct (datasets sv !! ref).
Qed.

(** This is what [exists_ok=True] buys. *)
Lemma never_conflict_create_dataset (ds : Dataset) :
  never_conflict (create_dataset ds true).
Proof.
  intros w. unfold Loader.create_dataset.
  destruct (request _ _ w) as [[a | e] w1]; [done |].
  destruct e; try done. apply never_conflict_get_dataset.
Qed.

Lemma never_conflict_ensure_dataset (ref : DatasetReference) :
  never_conflict (ensure_dataset ref).
Proof.
  intros w. unfold Loader.ensure_dataset, try_except_Exception.
  destruct (bind (get_dataset ref) _ w) as [[a | e] w1]; [done |].
  destruct (is_Exception e) eqn:He; [| by destruct e].
  revert w1. apply never_conflict_bind; [apply never_conflict_log |]. intros _.
  apply never_conflict_bind; [apply never_conflict_create_dataset |]. intros _.
  apply never_conflict_bind; [apply never_conflict_log |]. by intros _ w1.
Qed.

Lemma never_conflict_load_file : never_conflict load_file.
Proof.
  unfold Loader.load_file.
  apply never_conflict_bind; [apply never_conflict_log |]. intros _.
  apply never_conflict_bind; [| intros job; apply never_conflict_log].
  unfold with_open_rb. apply never_conflict_bind; [apply never_conflict_log |].
  intros _ w. destruct (local_files w !! FILE_PATH) as [lines |]; [| done].
  unfold finally, log.
  assert (Hbody : never_conflict
            (bind (load_table_from_file faults (mkFileObj FILE_PATH lines) table_ref
                     job_config) (fun job => result faults job))).
  { unfold bind, load_table_from_file. intros w0. unfold Loader.request at 1.
    destruct (faults (requests w0)) as [e |] eqn:Hf.
    - simpl. intros [= ->]. by apply (faults_no_conflict (requests w0)).
    - cbn [fst snd]. by apply never_conflict_request. }
  specialize (Hbody w). by destruct (bind _ _ w) as [r w1].
Qed.

Lemma never_conflict_script : never_conflict script.
Proof.
  unfold Loader.script. apply never_conflict_bind; [by intros w |]. intros found.
  destruct (negb found); [by intros w |].
  apply never_conflict_bind; [by apply never_conflict_request |]. intros _.
  apply never_conflict_bind; [apply never_conflict_ensure_dataset |]. intros _.
  apply never_conflict_load_file.
Qed.

End NoConflict.

(** *** The steps of the script, case by case *)

Lemma request_served {A : Type} (ev : event) (serve : Service -> outcome A * Service)
    (w : World) :
  faults (requests w) = None ->
  request ev serve w
  = (fst (serve (service w)),
     mkWorld (local_files w) (snd (serve (service w))) (S (requests w)) (trace w ++ [ev])).
Proof.
  intros Hf. unfold Loader.request. rewrite Hf. by destruct (serve (service w)).
Qed.

Lemma request_fault {A : Type} (ev : event) (serve : Service -> outcome A * Service)
    (w : World) (e : exn) :
  faults (requests w) = Some e ->
  request ev serve w
  = (Raise e, mkWorld (local_files w) (service w) (S (requests w)) (trace w ++ [ev])).
Proof. intros Hf. unfold Loader.request. by rewrite Hf. Qed.

(** The load: the job is submitted once, then awaited, then reported. *)
Lemma load_file_run (w : World) (lines : list string) :
  local_files w !! FILE_PATH = Some lines ->
  let n := requests w in
  let loading :=
    EPrint ("Loading " +:+ path_str FILE_PATH +:+ " into " +:+ table_ref +:+ " ...") in
  let submit := ELoadTableFromFile (mkFileObj FILE_PATH lines) table_ref job_config in
  let wait := EJobResult (mkLoadJob (mkFileObj FILE_PATH lines) table_ref job_config None) in
  let loaded :=
    EPrint ("Loaded " +:+ pretty (length lines) +:+ " rows into " +:+ table_ref +:+ ".") in
  load_file w
  = match faults n with
    | Some e =>
        (Raise e,
         mkWorld (local_files w) (service w) (S n)
                 (trace w ++ [loading; EOpen FILE_PATH; submit; EClose FILE_PATH]))
    | None =>
        match faults (S n) with
        | Some e =>
            (Raise e,
             mkWorld (local_files w) (service w) (S (S n))
                     (trace w ++ [loading; EOpen FILE_PATH; submit; wait; EClose FILE_PATH]))
        | None =>
            (Ok tt,
             mkWorld (local_files w)
                     (mkService (datasets (service w))
                                (<[table_ref := lines]> (tables (service w))))
                     (S (S n))
                     (trace w ++ [loading; EOpen FILE_PATH; submit; wait;
                                  EClose FILE_PATH; loaded]))
        end
    end.
Proof.
  intros Hfile n loading submit wait loaded.
  unfold Loader.load_file.
  unfold bind at 1. unfold print at 1, log at 1. cbv beta iota.
  unfold bind at 1. unfold with_open_rb at 1. unfold bind at 1. unfold log at 1.
  cbv beta iota. cbn [local_files]. rewrite Hfile.
  unfold finally. unfold bind at 1. unfold load_table_from_file at 1.
  destruct (faults n) as [e |] eqn:Hn.
  - rewrite (request_fault _ _ _ e) by exact Hn.
    unfold log; cbn. by rewrite <- !app_assoc.
  - rewrite request_served by exact Hn. cbn [fst snd].
    unfold result at 1.
    destruct (faults (S n)) as [e |] eqn:HSn.
    + rewrite (request_fault _ _ _ e) by exact HSn.
      unfold log; cbn. by rewrite <- !app_assoc.
    + rewrite request_served by exact HSn. cbn [fst snd].
      unfold log, print, log; cbn. by rewrite <- !app_assoc.
Qed.

(** The dataset step.  [dataset_ref] and the dataset the handler builds: *)
Local Abbreviation dataset_ref := (PROJECT_ID, DATASET_ID).
Local Abbreviation new_dataset := (mkDataset (PROJECT_ID, DATASET_ID) (Some "US")).
Local Abbreviation creating_line :=
  (EPrint "Creating dataset raw_shopify in project saras-bigquery...").

Lemma ensure_dataset_found (w : World) (ds : Dataset) :
  faults (requests w) = None ->
  datasets (service w) !! dataset_ref = Some ds ->
  ensure_dataset dataset_ref w
  = (Ok ds,
     mkWorld (local_files w) (service w) (S (requests w))
             (trace w ++ [EGetDataset dataset_ref;
                          EPrint "Dataset raw_shopify already exists."])).
Proof.
  intros Hf Hds. unfold Loader.ensure_dataset, try_except_Exception.
  unfold bind at 1. unfold Loader.get_dataset at 1.
  rewrite request_served by exact Hf. rewrite Hds. cbn [fst snd].
  unfold bind, print, log, ret; cbn. by rewrite <- app_assoc.
Qed.

Lemma ensure_dataset_created (w : World) :
  faults (requests w) = None ->
  faults (S (requests w)) = None ->
  datasets (service w) !! dataset_ref = None ->
  ensure_dataset dataset_ref w
  = (Ok new_dataset,
     mkWorld (local_files w)
             (mkService (<[dataset_ref := new_dataset]> (datasets (service w)))
                        (tables (service w)))
             (S (S (requests w)))
             (trace w ++ [EGetDataset dataset_ref; creating_line;
                          ECreateDataset new_dataset; EPrint "Dataset created."])).
Proof.
  intros Hf HSf Hds. unfold Loader.ensure_dataset, try_except_Exception.
  unfold bind at 1. unfold Loader.get_dataset at 1.
  rewrite request_served by exact Hf. rewrite Hds. cbn [fst snd is_Exception].
  unfold bind at 1. unfold print at 1, log at 1. cbv beta iota.
  unfold bind at 1. unfold Loader.create_dataset at 1.
  rewrite request_served by exact HSf. cbn [service dataset_reference]. rewrite Hds.
  cbn [fst snd]. unfold bind, print, log, ret; cbn. by rewrite <- !app_assoc.
Qed.


(** *** The script *)

Lemma script_absent (w : World) :
  local_files w !! FILE_PATH = None ->
  script w = (Raise (SystemExit ("File not found: " +:+ path_str FILE_PATH)), w).
Proof.
  intros Hfile. unfold Loader.script, bind at 1, os_path_exists.
  rewrite bool_decide_eq_false_2; [done |].
  rewrite Hfile. by intros [x Hx].
Qed.

Lemma script_present (w : World) (lines : list string) :
  local_files w !! FILE_PATH = Some lines ->
  script w
  = bind (bind (Client faults PROJECT_ID) (fun _ => ensure_dataset dataset_ref))
         (fun _ => load_file) w.
Proof.
  intros Hfile. unfold Loader.script, bind at 1, os_path_exists.
  rewrite bool_decide_eq_true_2 by (by rewrite Hfile). cbn [negb].
  unfold bind. by destruct (Client faults PROJECT_ID w) as [[a | e] w1].
Qed.

Lemma prelude_logs_only (P : event -> bool) :
  (forall ev, is_load ev = false -> P ev = true) ->
  logs_only P (bind (Client faults PROJECT_ID) (fun _ => ensure_dataset dataset_ref)).
Proof.
  intros HP. apply logs_only_bind.
  - by apply logs_only_request, HP.
  - intros _. by apply logs_only_ensure_dataset.
Qed.

Lemma filter_none (f : event -> bool) (evs : list event) :
  forallb (fun ev => negb (f ev)) evs = true -> List.filter f evs = [].
Proof.
  induction evs as [| ev evs IH]; [done |]. simpl.
  destruct (f ev); simpl; [done | exact IH].
Qed.

Lemma existsb_none (f : event -> bool) (evs : list event) :
  forallb (fun ev => negb (f ev)) evs = true -> existsb f evs = false.
Proof.
  induction evs as [| ev evs IH]; [done |]. simpl.
  destruct (f ev); simpl; [done | exact IH].
Qed.

(** The run without faults, the dataset being there or not. *)
Lemma script_run_found (w : World) (lines : list string) (ds : Dataset) :
  (forall n, faults n = None) ->
  local_files w !! FILE_PATH = Some lines ->
  datasets (service w) !! dataset_ref = Some ds ->
  script w
  = (Ok tt,
     mkWorld (local_files w)
       (mkService (datasets (service w)) (<[table_ref := lines]> (tables (service w))))
       (4 + requests w)
       (trace w
        ++ [EClient PROJECT_ID; EGetDataset dataset_ref;
            EPrint "Dataset raw_shopify already exists.";
            EPrint ("Loading " +:+ path_str FILE_PATH +:+ " into " +:+ table_ref +:+ " ...");
            EOpen FILE_PATH;
            ELoadTableFromFile (mkFileObj FILE_PATH lines) table_ref job_config;
            EJobResult (mkLoadJob (mkFileObj FILE_PATH lines) table_ref job_config None);
            EClose FILE_PATH;
            EPrint ("Loaded " +:+ pretty (length lines) +:+ " rows into "
                    +:+ table_ref +:+ ".")])).
Proof.
  intros Hno Hfile Hds. rewrite (script_present w lines Hfile).
  unfold bind at 1. unfold bind at 1. unfold Client at 1.
  rewrite request_served by apply Hno. cbn [fst snd].
  rewrite (ensure_dataset_found _ ds) by (apply Hno || exact Hds).
  rewrite (load_file_run _ lines) by exact Hfile.
  rewrite !Hno. cbn [local_files service requests trace].
  by rewrite <- !app_assoc.
Qed.

Lemma script_run_created (w : World) (lines : list string) :
  (forall n, faults n = None) ->
  local_files w !! FILE_PATH = Some lines ->
  datasets (service w) !! dataset_ref = None ->
  script w
  = (Ok tt,
     mkWorld (local_files w)
       (mkService (<[dataset_ref := new_dataset]> (datasets (service w)))
                  (<[table_ref := lines]> (tables (service w))))
       (5 + requests w)
       (trace w
        ++ [EClient PROJECT_ID; EGetDataset dataset_ref; creating_line;
            ECreateDataset new_dataset; EPrint "Dataset created.";
            EPrint ("Loading " +:+ path_str FILE_PATH +:+ " into " +:+ table_ref +:+ " ...");
            EOpen FILE_PATH;
            ELoadTableFromFile (mkFileObj FILE_PATH lines) table_ref job_config;
            EJobResult (mkLoadJob (mkFileObj FILE_PATH lines) table_ref job_config None);
            EClose FILE_PATH;
            EPrint ("Loaded " +:+ pretty (length lines) +:+ " rows into "
                    +:+ table_ref +:+ ".")])).
Proof.
  intros Hno Hfile Hds. rewrite (script_present w lines Hfile).
  unfold bind at 1. unfold bind at 1. unfold Client at 1.
  rewrite request_served by apply Hno. cbn [fst snd].
  rewrite ensure_dataset_created by (apply Hno || exact Hds).
  rewrite (load_file_run _ lines) by exact Hfile.
  rewrite !Hno. cbn [local_files service requests trace datasets tables].
  by rewrite <- !app_assoc.
Qed.

(** C5: without the source file the script raises [SystemExit] with the
    message [File not found: <path>] (exit status 1) and the world is
    exactly as it was: no client was built, no request was made, nothing
    was logged. *)
Theorem missing_file_halts_before_remote (w : World) :
  local_files w !! FILE_PATH = None ->
  script w
  = (Raise (SystemExit ("File not found: " +:+ path_str FILE_PATH)), w)
  /\ exit_status (fst (script w)) <> 0
  /\ stderr_message (fst (script w))
     = Some ("File not found: " +:+ path_str FILE_PATH)
  /\ requests (snd (script w)) = requests w
  /\ trace (snd (script w)) = trace w.
Proof.
  intros Hfile. rewrite (script_absent w Hfile). by repeat split.
Qed.

(** C6: with the source file in place, a run submits at most one load job,
    and the one it submits is for that file, into
    [saras-bigquery.raw_shopify.orders], as newline-delimited JSON with
    schema detection and [WRITE_TRUNCATE].  A run that ends well has
    submitted exactly one, has waited for it ([job.result()]) before the
    closing report, reports the number of rows of the file, and leaves the
    table holding the rows of the file and nothing of what it held before.
    When the service raises no fault the run ends well. *)
Theorem one_load_job_truncating (w : World) (lines : list string) :
  local_files w !! FILE_PATH = Some lines ->
  let dest := "saras-bigquery.raw_shopify.orders" in
  let config := mkLoadJobConfig NEWLINE_DELIMITED_JSON true WRITE_TRUNCATE in
  let submit := ELoadTableFromFile (mkFileObj FILE_PATH lines) dest config in
  let wait := EJobResult (mkLoadJob (mkFileObj FILE_PATH lines) dest config None) in
  let report :=
    EPrint ("Loaded " +:+ pretty (length lines)
            +:+ " rows into saras-bigquery.raw_shopify.orders.") in
  exists evs,
    trace (snd (script w)) = trace w ++ evs
    /\ (List.filter is_load evs = [] \/ List.filter is_load evs = [submit])
    /\ (fst (script w) = Ok tt ->
        (exists before,
           evs = before ++ [submit; wait; EClose FILE_PATH; report]
           /\ List.filter is_load before = [])
        /\ tables (service (snd (script w))) !! dest = Some lines)
    /\ ((forall n, faults n = None) -> fst (script w) = Ok tt).
Proof.
  intros Hfile dest config submit wait report.
  assert (Hclean : (forall n, faults n = None) -> fst (script w) = Ok tt).
  { intros Hno. destruct (datasets (service w) !! dataset_ref) as [ds |] eqn:Hds.
    - by rewrite (script_run_found w lines ds).
    - by rewrite (script_run_created w lines). }
  revert Hclean. rewrite (script_present w lines Hfile). intros Hclean.
  assert (Hquiet : forall ev, is_load ev = false -> negb (is_load ev) = true)
    by (by intros ev ->).
  destruct (prelude_logs_only (fun ev => negb (is_load ev)) Hquiet w)
    as (Hl & evs1 & Htr1 & HP1).
  apply filter_none in HP1.
  set (prelude := bind (Client faults PROJECT_ID) _) in *.
  unfold bind in Hclean |- *.
  destruct (prelude w) as [[ds | e] w1]; cbn [snd] in *.
  - assert (Hfile1 : local_files w1 !! FILE_PATH = Some lines) by (by rewrite Hl).
    rewrite (load_file_run w1 lines Hfile1) in *.
    destruct (faults (requests w1)) as [e |];
      [| destruct (faults (S (requests w1))) as [e |]]; cbn [fst snd trace service tables].
    + exists (evs1 ++ [EPrint ("Loading " +:+ path_str FILE_PATH +:+ " into "
                               +:+ table_ref +:+ " ...");
                       EOpen FILE_PATH; submit; EClose FILE_PATH]).
      rewrite Htr1, <- app_assoc, List.filter_app, HP1.
      split; [done |]. split; [by right |]. split; [done | exact Hclean].
    + exists (evs1 ++ [EPrint ("Loading " +:+ path_str FILE_PATH +:+ " into "
                               +:+ table_ref +:+ " ...");
                       EOpen FILE_PATH; submit; wait; EClose FILE_PATH]).
      rewrite Htr1, <- app_assoc, List.filter_app, HP1.
      split; [done |]. split; [by right |]. split; [done | exact Hclean].
    + exists (evs1 ++ [EPrint ("Loading " +:+ path_str FILE_PATH +:+ " into "
                               +:+ table_ref +:+ " ...");
                       EOpen FILE_PATH; submit; wait; EClose FILE_PATH; report]).
      rewrite Htr1, <- app_assoc, List.filter_app, HP1.
      split; [done |]. split; [by right |]. split; [| exact Hclean].
      intros _. split.
      * exists (evs1 ++ [EPrint ("Loading " +:+ path_str FILE_PATH +:+ " into "
                                 +:+ table_ref +:+ " ...");
                         EOpen FILE_PATH]).
        rewrite <- app_assoc, List.filter_app, HP1. done.
      * apply lookup_insert_eq.
  - exists evs1. split; [exact Htr1 |]. split; [by left |]. split; [done | exact Hclean].
Qed.



(** *** The shape of a run *)

Lemma prelude_steps :
  logs_only is_dataset_step
    (bind (Client faults PROJECT_ID) (fun _ => ensure_dataset dataset_ref)).
Proof.
  apply logs_only_bind; [by apply logs_only_request |]. intros _.
  unfold Loader.ensure_dataset. apply logs_only_try.
  - apply logs_only_bind; [by apply logs_only_get_dataset |]. intros ds.
    apply logs_only_bind; [by apply logs_only_log |]. intros _. apply logs_only_ret.
  - apply logs_only_bind; [by apply logs_only_log |]. intros _.
    apply logs_only_bind; [by apply logs_only_create_dataset |]. intros _.
    apply logs_only_bind; [by apply logs_only_log |]. intros _. apply logs_only_ret.
Qed.

(** A run with the source file in place: the dataset steps, and then,
    when they went well, the load up to the call that raises, or to the
    report. *)
Lemma script_shape (w : World) (lines : list string) :
  local_files w !! FILE_PATH = Some lines ->
  let loading :=
    EPrint ("Loading " +:+ path_str FILE_PATH +:+ " into " +:+ table_ref +:+ " ...") in
  let submit := ELoadTableFromFile (mkFileObj FILE_PATH lines) table_ref job_config in
  let wait := EJobResult (mkLoadJob (mkFileObj FILE_PATH lines) table_ref job_config None) in
  let loaded :=
    EPrint ("Loaded " +:+ pretty (length lines) +:+ " rows into " +:+ table_ref +:+ ".") in
  exists steps tail,
    trace (snd (script w)) = trace w ++ steps ++ tail
    /\ forallb is_dataset_step steps = true
    /\ ((fst (script w) = Ok tt
         /\ tail = [loading; EOpen FILE_PATH; submit; wait; EClose FILE_PATH; loaded])
        \/ ((exists e, fst (script w) = Raise e)
            /\ (tail = []
                \/ tail = [loading; EOpen FILE_PATH; submit; EClose FILE_PATH]
                \/ tail = [loading; EOpen FILE_PATH; submit; wait; EClose FILE_PATH]))).
Proof.
  intros Hfile loading submit wait loaded.
  rewrite (script_present w lines Hfile).
  destruct (prelude_steps w) as (Hl & steps & Htr & Hsteps).
  set (prelude := bind (Client faults PROJECT_ID) _) in *.
  unfold bind. destruct (prelude w) as [[ds | e] w1]; cbn [fst snd] in *.
  - assert (Hfile1 : local_files w1 !! FILE_PATH = Some lines) by (by rewrite Hl).
    rewrite (load_file_run w1 lines Hfile1).
    destruct (faults (requests w1)) as [e |];
      [| destruct (faults (S (requests w1))) as [e |]]; cbn [fst snd trace];
      eexists steps, _; rewrite Htr, <- app_assoc;
      (split; [reflexivity |]); (split; [exact Hsteps |]).
    + right. split; [by eexists |]. right. by left.
    + right. split; [by eexists |]. right. by right.
    + left. by split.
  - exists steps, []. rewrite app_nil_r. split; [exact Htr |]. split; [exact Hsteps |].
    right. split; [by eexists | by left].
Qed.

Lemma dataset_step_not_report (ev : event) :
  is_dataset_step ev = true -> is_report ev = false.
Proof.
  destruct ev; try done. simpl. rewrite !orb_true_iff, !String.eqb_eq.
  by intros [[-> | ->] | ->].
Qed.

Lemma dataset_step_not_open_or_close (ev : event) :
  is_dataset_step ev = true -> is_open_or_close ev = false.
Proof. by destruct ev. Qed.

Lemma steps_filter_none (f : event -> bool) (steps : list event) :
  (forall ev, is_dataset_step ev = true -> f ev = false) ->
  forallb is_dataset_step steps = true ->
  List.filter f steps = [] /\ existsb f steps = false.
Proof.
  intros Hf. induction steps as [| ev steps IH]; [done |]. simpl.
  rewrite andb_true_iff. intros [Hev Hrest]. rewrite (Hf ev Hev). by apply IH.
Qed.

(** X9: the closing report [Loaded <n> rows into ...] is printed in the
    runs that end well and in no other: a missing file, a failing dataset
    step, a refused submission or a failed job leave no such line. *)
Theorem report_iff_success (w : World) :
  exists evs,
    trace (snd (script w)) = trace w ++ evs
    /\ (existsb is_report evs = true <-> fst (script w) = Ok tt).
Proof.
  destruct (local_files w !! FILE_PATH) as [lines |] eqn:Hfile.
  - destruct (script_shape w lines Hfile)
      as (steps & tail & Htr & Hsteps & Hcases).
    exists (steps ++ tail). split; [exact Htr |].
    destruct (steps_filter_none is_report steps dataset_step_not_report Hsteps)
      as [_ Hnone].
    rewrite existsb_app, Hnone.
    destruct Hcases as [[Hok ->] | [[e He] [-> | [-> | ->]]]].
    + rewrite Hok. split; [done |]. intros _. cbn [orb].
      apply existsb_exists. eexists. split; [do 5 right; left; reflexivity |].
      apply StringFacts.prefix_append.
    + rewrite He. by split.
    + rewrite He. split; [| done]. intros H. exfalso. revert H.
      change (false <> true). discriminate.
    + rewrite He. split; [| done]. intros H. exfalso. revert H.
      change (false <> true). discriminate.
  - rewrite (script_absent w Hfile). exists []. rewrite app_nil_r. by split.
Qed.

(** X10: a run opens the source file at most once, and a file that was
    opened is closed again before the run ends, also when the submission
    or the job raises: the run's openings and closings are either none,
    or one opening of the source file followed by its closing. *)
Theorem source_file_closed_when_opened (w : World) :
  exists evs,
    trace (snd (script w)) = trace w ++ evs
    /\ (List.filter is_open_or_close evs = []
        \/ List.filter is_open_or_close evs = [EOpen FILE_PATH; EClose FILE_PATH]).
Proof.
  destruct (local_files w !! FILE_PATH) as [lines |] eqn:Hfile.
  - destruct (script_shape w lines Hfile)
      as (steps & tail & Htr & Hsteps & Hcases).
    exists (steps ++ tail). split; [exact Htr |].
    destruct (steps_filter_none is_open_or_close steps
                dataset_step_not_open_or_close Hsteps) as [Hnone _].
    rewrite List.filter_app, Hnone.
    destruct Hcases as [[_ ->] | [_ [-> | [-> | ->]]]]; by (left + right).
  - rewrite (script_absent w Hfile). exists []. rewrite app_nil_r. by split; [| left].
Qed.

(** *** The dataset is there when the load starts *)

Lemma get_dataset_ok (ref : DatasetReference) (w : World) (ds : Dataset) :
  fst (get_dataset ref w) = Ok ds ->
  datasets (service (snd (get_dataset ref w))) !! ref = Some ds.
Proof.
  unfold Loader.get_dataset, Loader.request.
  destruct (faults (requests w)); [done |].
  destruct (datasets (service w) !! ref) eqn:Hds; cbn; [| done].
  by intros [= ->].
Qed.

Lemma create_dataset_ok (ds d : Dataset) (exists_ok : bool) (w : World) :
  fst (create_dataset ds exists_ok w) = Ok d ->
  is_Some (datasets (service (snd (create_dataset ds exists_ok w)))
             !! dataset_reference ds).
Proof.
  unfold Loader.create_dataset, Loader.request.
  destruct (faults (requests w)) as [e |].
  - destruct e; try done. destruct exists_ok; [| done].
    intros H. apply get_dataset_ok in H. by eexists.
  - destruct (datasets (service w) !! dataset_reference ds) eqn:Hds;
      cbn [fst snd local_files service requests trace].
    + destruct exists_ok; [| done]. intros H. apply get_dataset_ok in H. by eexists.
    + intros _. cbn. rewrite lookup_insert_eq. by eexists.
Qed.

Lemma ensure_dataset_ok (w : World) (ds : Dataset) :
  fst (ensure_dataset dataset_ref w) = Ok ds ->
  is_Some (datasets (service (snd (ensure_dataset dataset_ref w))) !! dataset_ref).
Proof.
  unfold Loader.ensure_dataset, try_except_Exception, bind, print, log, ret.
  cbv zeta. cbn [dataset_reference].
  pose proof (get_dataset_ok dataset_ref w) as Hget.
  destruct (get_dataset dataset_ref w) as [[d | e] w1]; cbn [fst snd service] in *.
  - intros _. exists d. exact (Hget d eq_refl).
  - destruct (is_Exception e); [| done]. clear Hget.
    set (w2 := mkWorld _ _ _ _).
    pose proof (fun d => create_dataset_ok new_dataset d true w2) as Hcreate.
    destruct (create_dataset new_dataset true w2) as [[d | e'] w3];
      cbn [fst snd service] in *; [| done].
    intros _. exact (Hcreate d eq_refl).
Qed.

(** X7: a load job is submitted only once the dataset step has ended
    well, and then the dataset is there: in a run that submits the load,
    the dataset [raw_shopify] exists, whatever faults the service raised on
    the way. *)
Theorem load_only_into_existing_dataset (w : World) :
  exists evs,
    trace (snd (script w)) = trace w ++ evs
    /\ (existsb is_load evs = true ->
        is_Some (datasets (service (snd (script w))) !! (PROJECT_ID, DATASET_ID))).
Proof.
  destruct (local_files w !! FILE_PATH) as [lines |] eqn:Hfile.
  2: { rewrite (script_absent w Hfile). exists []. by rewrite app_nil_r. }
  rewrite (script_present w lines Hfile).
  assert (Hquiet : forall ev, is_load ev = false -> negb (is_load ev) = true)
    by (by intros ev ->).
  destruct (prelude_logs_only (fun ev => negb (is_load ev)) Hquiet w)
    as (_ & evs1 & Htr1 & HP1).
  apply existsb_none in HP1.
  assert (Hthere : forall ds w1,
            bind (Client faults PROJECT_ID) (fun _ => ensure_dataset dataset_ref) w
            = (Ok ds, w1) ->
            is_Some (datasets (service w1) !! dataset_ref)).
  { intros ds w1. unfold bind.
    destruct (Client faults PROJECT_ID w) as [[[] | e] w0]; [| done].
    intros H. pose proof (ensure_dataset_ok w0 ds) as Hok. rewrite H in Hok.
    by apply Hok. }
  set (prelude := bind (Client faults PROJECT_ID) _) in *.
  unfold bind. destruct (prelude w) as [[ds | e] w1]; cbn [snd] in *.
  - specialize (Hthere ds w1 eq_refl) as [d Hd].
    destruct (logs_only_load_file (fun _ => true) (fun _ _ => eq_refl) w1)
      as (_ & evs2 & Htr2 & _).
    exists (evs1 ++ evs2). split; [by rewrite Htr2, Htr1, app_assoc |].
    intros _. exists d. by apply keeps_load_file.
  - exists evs1. split; [exact Htr1 |]. by rewrite HP1.
Qed.

(** *** What a run may change *)

Lemma service_within_refl (sv : Service) : service_within sv sv.
Proof. split; [by left | done]. Qed.

Lemma service_within_trans (sv1 sv2 sv3 : Service) :
  service_within sv1 sv2 -> service_within sv2 sv3 -> service_within sv1 sv3.
Proof.
  intros [Hd12 Ht12] [Hd23 Ht23]. split.
  - intros ref. destruct (Hd12 ref) as [H12 | (Href1 & Hn1 & Hs2)],
      (Hd23 ref) as [H23 | (Href & Hn2 & Hs3)].
    + left. congruence.
    + right. repeat split; congruence.
    + right. repeat split; congruence.
    + congruence.
  - intros t Ht. rewrite Ht23, Ht12; done.
Qed.

Lemma within_footprint_trans (w1 w2 w3 : World) :
  within_footprint w1 w2 -> within_footprint w2 w3 -> within_footprint w1 w3.
Proof.
  intros [Hl12 Hs12] [Hl23 Hs23]. split; [congruence |].
  by apply (service_within_trans _ (service w2)).
Qed.

Lemma stays_ret {A : Type} (a : A) : stays_within (ret a : M World A).
Proof. intros w. split; [done | apply service_within_refl]. Qed.

Lemma stays_raise {A : Type} (e : exn) : stays_within (raise e : M World A).
Proof. intros w. split; [done | apply service_within_refl]. Qed.

Lemma stays_log (ev : event) : stays_within (log ev).
Proof. intros w. split; [done | apply service_within_refl]. Qed.

Lemma stays_bind {A B : Type} (c : M World A) (k : A -> M World B) :
  stays_within c -> (forall a, stays_within (k a)) -> stays_within (bind c k).
Proof.
  intros Hc Hk w. unfold bind. specialize (Hc w).
  destruct (c w) as [[a | e] w1]; cbn [snd] in *; [| done].
  by apply (within_footprint_trans _ w1); [| apply Hk].
Qed.

Lemma stays_try {A : Type} (body handler : M World A) :
  stays_within body -> stays_within handler ->
  stays_within (try_except_Exception body handler).
Proof.
  intros Hb Hh w. unfold try_except_Exception. specialize (Hb w).
  destruct (body w) as [[a | e] w1]; cbn [snd] in *; [done |].
  destruct (is_Exception e); [| done].
  by apply (within_footprint_trans _ w1); [| apply Hh].
Qed.

Lemma stays_finally {A : Type} (body : M World A) (cleanup : M World unit) :
  stays_within body -> stays_within cleanup -> stays_within (finally body cleanup).
Proof.
  intros Hb Hc w. unfold finally. specialize (Hb w).
  destruct (body w) as [r w1]; cbn [snd] in *. specialize (Hc w1).
  assert (within_footprint w (snd (cleanup w1))) as Hgoal
    by (by apply (within_footprint_trans _ w1)).
  by destruct (cleanup w1) as [[[] | e] w2].
Qed.

Lemma stays_request {A : Type} (ev : event) (serve : Service -> outcome A * Service) :
  (forall sv, service_within sv (snd (serve sv))) -> stays_within (request ev serve).
Proof.
  intros Hs w. unfold Loader.request.
  destruct (faults (requests w)); [split; [done | apply service_within_refl] |].
  specialize (Hs (service w)). by destruct (serve (service w)).
Qed.

Lemma stays_get_dataset (ref : DatasetReference) : stays_within (get_dataset ref).
Proof.
  apply stays_request. intros sv.
  destruct (datasets sv !! ref); apply service_within_refl.
Qed.

Lemma stays_create_dataset (exists_ok : bool) :
  stays_within (create_dataset new_dataset exists_ok).
Proof.
  intros w. unfold Loader.create_dataset.
  pose proof (stays_request (ECreateDataset new_dataset)
    (fun sv =>
       match datasets sv !! dataset_reference new_dataset with
       | Some _ => (Raise Conflict, sv)
       | None =>
           (Ok new_dataset,
            mkService (<[dataset_reference new_dataset := new_dataset]> (datasets sv))
                      (tables sv))
       end)) as Hreq.
  assert (Hserve : forall sv,
            service_within sv
              (snd (match datasets sv !! dataset_reference new_dataset with
                    | Some _ => (Raise Conflict, sv)
                    | None =>
                        (Ok new_dataset,
                         mkService
                           (<[dataset_reference new_dataset := new_dataset]> (datasets sv))
                           (tables sv))
                    end))).
  { intros sv. cbn [dataset_reference].
    destruct (datasets sv !! dataset_ref) eqn:Hds; cbn [snd];
      [apply service_within_refl |].
    split; [| done]. intros ref. cbn [datasets].
    destruct (decide (ref = dataset_ref)) as [-> | Hne].
    - right. by rewrite lookup_insert_eq.
    - left. by rewrite lookup_insert_ne. }
  specialize (Hreq Hserve w).
  destruct (request _ _ w) as [[a | e] w1]; cbn [snd] in *; [done |].
  destruct e; try done. destruct exists_ok; [| done].
  apply (within_footprint_trans _ w1); [done | apply stays_get_dataset].
Qed.

Lemma stays_ensure_dataset : stays_within (ensure_dataset dataset_ref).
Proof.
  unfold Loader.ensure_dataset. apply stays_try.
  - apply stays_bind; [apply stays_get_dataset |]. intros ds.
    apply stays_bind; [apply stays_log |]. intros _. apply stays_ret.
  - apply stays_bind; [apply stays_log |]. intros _.
    apply stays_bind; [apply stays_create_dataset |]. intros _.
    apply stays_bind; [apply stays_log |]. intros _. apply stays_ret.
Qed.

Lemma stays_load_file : stays_within load_file.
Proof.
  unfold Loader.load_file.
  apply stays_bind; [apply stays_log |]. intros _.
  apply stays_bind; [| intros job; apply stays_log].
  unfold with_open_rb. apply stays_bind; [apply stays_log |]. intros _ w.
  destruct (local_files w !! FILE_PATH) as [lines |];
    [| split; [done | apply service_within_refl]].
  apply stays_finally; [| apply stays_log]. clear w.
  intros w. unfold bind, load_table_from_file. unfold Loader.request at 1.
  destruct (faults (requests w)); [split; [done | apply service_within_refl] |].
  cbn [fst snd local_files service requests trace].
  set (w1 := mkWorld _ _ _ _).
  apply (within_footprint_trans _ w1); [split; [done | apply service_within_refl] |].
  apply stays_request. intros sv. cbv zeta. unfold job_config, loaded_rows.
  cbn [snd lj_config lj_destination lj_source write_disposition].
  split; [by left |].
  intros t Ht. cbn [tables]. by rewrite lookup_insert_ne.
Qed.

Lemma stays_script : stays_within script.
Proof.
  unfold Loader.script.
  apply stays_bind; [intros w; split; [done | apply service_within_refl] |].
  intros found. destruct (negb found); [apply stays_raise |].
  apply stays_bind; [apply stays_request; intros sv; apply service_within_refl |].
  intros _. apply stays_bind; [apply stays_ensure_dataset |]. intros _.
  apply stays_load_file.
Qed.

(** *** The dataset is created when it is not there, and only then *)

Lemma prelude_ok_dataset_there (w w1 : World) (ds : Dataset) :
  bind (Client faults PROJECT_ID) (fun _ => ensure_dataset dataset_ref) w = (Ok ds, w1) ->
  is_Some (datasets (service w1) !! dataset_ref).
Proof.
  unfold bind. destruct (Client faults PROJECT_ID w) as [[[] | e] w0]; [| done].
  intros H. pose proof (ensure_dataset_ok w0 ds) as Hok. rewrite H in Hok.
  by apply Hok.
Qed.

(** A run that ends well leaves the dataset in place. *)
Lemma script_ok_dataset_there (w : World) :
  fst (script w) = Ok tt ->
  is_Some (datasets (service (snd (script w))) !! dataset_ref).
Proof.
  destruct (local_files w !! FILE_PATH) as [lines |] eqn:Hfile;
    [| by rewrite (script_absent w Hfile)].
  rewrite (script_present w lines Hfile).
  pose proof (prelude_ok_dataset_there w) as Hthere.
  set (prelude := bind (Client faults PROJECT_ID) _) in *.
  unfold bind. destruct (prelude w) as [[ds | e] w1]; cbn [fst snd]; [| done].
  intros _. destruct (Hthere w1 ds eq_refl) as [d Hd]. exists d.
  by apply keeps_load_file.
Qed.

(** C3: the only change a run makes to the dataset is to create it, in
    [US], when it is not there before the run: a dataset that is there is
    left as it is, whatever the service does.  In a run that ends well the
    dataset has been created exactly when it was not there before the run.
    No run, a second run included, ends with the [Conflict] of a creation
    unless the service is made to fail with one; and when the service
    raises no fault, a run and a second run right after it both end well,
    the second leaving the datasets as the first left them. *)
Theorem dataset_created_iff_absent (w : World) :
  let before := datasets (service w) !! (PROJECT_ID, DATASET_ID) in
  let after := datasets (service (snd (script w))) !! (PROJECT_ID, DATASET_ID) in
  (after <> before ->
   before = None /\ after = Some (mkDataset (PROJECT_ID, DATASET_ID) (Some "US")))
  /\ (fst (script w) = Ok tt -> (after <> before <-> before = None))
  /\ ((forall n, faults n <> Some Conflict) ->
      fst (script w) <> Raise Conflict
      /\ fst (script (snd (script w))) <> Raise Conflict)
  /\ ((forall n, faults n = None) ->
      is_Some (local_files w !! FILE_PATH) ->
      fst (script w) = Ok tt
      /\ fst (script (snd (script w))) = Ok tt
      /\ datasets (service (snd (script (snd (script w)))))
         = datasets (service (snd (script w)))).
Proof.
  intros before after.
  assert (Hchange : after <> before -> before = None /\ after = Some new_dataset).
  { destruct (stays_script w) as (_ & Hd & _).
    destruct (Hd dataset_ref) as [Hsame | (_ & Hb & Ha)]; intros Hne; [done |].
    by split. }
  split; [exact Hchange |]. split; [| split].
  - intros Hok. split; [intros Hne; by apply Hchange |].
    intros Hb. destruct (script_ok_dataset_there w Hok) as [d Hd].
    subst before after. rewrite Hd, Hb. discriminate.
  - intros Hnc. split; by apply never_conflict_script.
  - intros Hno [lines Hfile].
    destruct (datasets (service w) !! dataset_ref) as [ds |] eqn:Hds.
    + rewrite (script_run_found w lines ds Hno Hfile Hds). cbn [fst snd].
      set (w1 := mkWorld _ _ _ _).
      rewrite (script_run_found w1 lines ds Hno Hfile Hds). by cbn [fst snd service datasets].
    + rewrite (script_run_created w lines Hno Hfile Hds). cbn [fst snd].
      set (w1 := mkWorld _ _ _ _).
      assert (Hds1 : datasets (service w1) !! dataset_ref = Some new_dataset)
        by apply lookup_insert_eq.
      rewrite (script_run_found w1 lines new_dataset Hno Hfile Hds1).
      by cbn [fst snd service datasets].
Qed.

(** X8: whatever the service does, a run leaves the local files as they
    are, changes no table other than [saras-bigquery.raw_shopify.orders],
    and changes no dataset, except that it may create [raw_shopify], in
    [US], when that dataset was not there. *)
Theorem run_touches_only_dataset_and_table (w : World) :
  local_files (snd (script w)) = local_files w
  /\ (forall ref,
        datasets (service (snd (script w))) !! ref = datasets (service w) !! ref
        \/ (ref = ("saras-bigquery", "raw_shopify")
            /\ datasets (service w) !! ref = None
            /\ datasets (service (snd (script w))) !! ref
               = Some (mkDataset ("saras-bigquery", "raw_shopify") (Some "US"))))
  /\ (forall t,
        t <> "saras-bigquery.raw_shopify.orders" ->
        tables (service (snd (script w))) !! t = tables (service w) !! t).
Proof.
  destruct (stays_script w) as (Hl & Hd & Ht). split; [exact Hl |]. split.
  - exact Hd.
  - exact Ht.
Qed.

(** X12: loading is a replacement, so loading twice is loading once: when
    the service raises no fault, a second run right after the first leaves
    the warehouse (datasets and tables) exactly as the first run left it,
    with the rows of the file in the table once, not twice. *)
Theorem second_run_changes_nothing (w : World) (lines : list string) :
  (forall n, faults n = None) ->
  local_files w !! FILE_PATH = Some lines ->
  service (snd (script (snd (script w)))) = service (snd (script w))
  /\ tables (service (snd (script (snd (script w)))))
       !! "saras-bigquery.raw_shopify.orders"
     = Some lines.
Proof.
  intros Hno Hfile.
  destruct (datasets (service w) !! dataset_ref) as [ds |] eqn:Hds.
  - rewrite (script_run_found w lines ds Hno Hfile Hds). cbn [snd].
    set (w1 := mkWorld _ _ _ _).
    rewrite (script_run_found w1 lines ds Hno Hfile Hds).
    subst w1. cbn [snd service datasets tables]. rewrite insert_insert_eq.
    split; [done | apply lookup_insert_eq].
  - rewrite (script_run_created w lines Hno Hfile Hds). cbn [snd].
    set (w1 := mkWorld _ _ _ _).
    assert (Hds1 : datasets (service w1) !! dataset_ref = Some new_dataset)
      by apply lookup_insert_eq.
    rewrite (script_run_found w1 lines new_dataset Hno Hfile Hds1).
    subst w1. cbn [snd service datasets tables]. rewrite insert_insert_eq.
    split; [done | apply lookup_insert_eq].
Qed.

End Facts.

(** *** Worked examples *)

(** A run in which the lookup of the dataset, which is there, is refused
    by the service. *)
Example refused_lookup_log :
  trace (snd (Loader.script lookup_forbidden demo_root (demo_world true true)))
  = [EClient "saras-bigquery";
     EGetDataset ("saras-bigquery", "raw_shopify");
     EPrint "Creating dataset raw_shopify in project saras-bigquery...";
     ECreateDataset (mkDataset ("saras-bigquery", "raw_shopify") (Some "US"));
     EGetDataset ("saras-bigquery", "raw_shopify");
     EPrint "Dataset created.";
     EPrint ("Loading /srv/dbt-training/RAW_DATASETS/"
             +:+ "bquxjob_12dd921d_19c2829b22b_yourgpt.jsonl"
             +:+ " into saras-bigquery.raw_shopify.orders ...");
     EOpen demo_file;
     ELoadTableFromFile (mkFileObj demo_file ["{a}"; "{b}"])
       "saras-bigquery.raw_shopify.orders"
       (mkLoadJobConfig NEWLINE_DELIMITED_JSON true WRITE_TRUNCATE);
     EJobResult
       (mkLoadJob (mkFileObj demo_file ["{a}"; "{b}"])
          "saras-bigquery.raw_shopify.orders"
          (mkLoadJobConfig NEWLINE_DELIMITED_JSON true WRITE_TRUNCATE) None);
     EClose demo_file;
     EPrint "Loaded 2 rows into saras-bigquery.raw_shopify.orders."].
Proof. vm_compute. reflexivity. Qed.


Lemma demo_run_ends_well :
  fst (Loader.script no_faults demo_root (demo_world true false)) = Ok tt.
Proof. vm_compute. reflexivity. Defined.

Lemma dataset_created_iff_absent_witness :
  fst (Loader.script no_faults demo_root (demo_world true false)) = Ok tt
  /\ datasets (service (demo_world true false)) !! (PROJECT_ID, DATASET_ID) = None
  /\ datasets (service (snd (Loader.script no_faults demo_root (demo_world true false))))
       !! (PROJECT_ID, DATASET_ID)
     <> datasets (service (demo_world true false)) !! (PROJECT_ID, DATASET_ID)
  /\ fst (Loader.script no_faults demo_root
            (snd (Loader.script no_faults demo_root (demo_world true false))))
     = Ok tt.
Proof.
  split; [exact demo_run_ends_well |]. split; [reflexivity |].
  destruct (dataset_created_iff_absent no_faults demo_root (demo_world true false))
    as (_ & Hiff & _ & Hclean).
  split.
  - apply (Hiff demo_run_ends_well). reflexivity.
  - destruct (Hclean (fun _ => eq_refl)) as (_ & Hagain & _); [by eexists |].
    exact Hagain.
Defined.

Lemma missing_file_halts_before_remote_witness :
  local_files (demo_world false true) !! demo_file = None
  /\ Loader.script no_faults demo_root (demo_world false true)
     = (Raise (SystemExit
                 ("File not found: "
                  +:+ "/srv/dbt-training/RAW_DATASETS/"
                  +:+ "bquxjob_12dd921d_19c2829b22b_yourgpt.jsonl")),
        demo_world false true).
Proof.
  split; [reflexivity |].
  exact (proj1 (missing_file_halts_before_remote no_faults demo_root
                  (demo_world false true) eq_refl)).
Defined.

Lemma one_load_job_truncating_witness :
  local_files (demo_world true true) !! demo_file = Some ["{a}"; "{b}"]
  /\ fst (Loader.script no_faults demo_root (demo_world true true)) = Ok tt
  /\ tables (service (snd (Loader.script no_faults demo_root (demo_world true true))))
       !! "saras-bigquery.raw_shopify.orders"
     = Some ["{a}"; "{b}"].
Proof.
  split; [reflexivity |].
  destruct (one_load_job_truncating no_faults demo_root (demo_world true true)
              ["{a}"; "{b}"] eq_refl) as (evs & _ & _ & Hok & Hclean).
  split; [exact (Hclean (fun _ => eq_refl)) |].
  exact (proj2 (Hok (Hclean (fun _ => eq_refl)))).
Defined.

Lemma second_run_changes_nothing_witness :
  local_files (demo_world true false) !! demo_file = Some ["{a}"; "{b}"]
  /\ service (snd (Loader.script no_faults demo_root
                     (snd (Loader.script no_faults demo_root (demo_world true false)))))
     = service (snd (Loader.script no_faults demo_root (demo_world true false))).
Proof.
  split; [reflexivity |].
  exact (proj1 (second_run_changes_nothing no_faults demo_root (demo_world true false)
                  ["{a}"; "{b}"] (fun _ => eq_refl) eq_refl)).
Defined.

End LoaderSpec.
